(** * Task list front end: the rendered list, its handlers and the event loop

    The repository ships two variants of the to-do page script.
    - [Rest] embeds the PostgREST-backed [index.js]: [renderTask], [loadTasks],
      [addTask], [completeTask], the click listener of a list item and the
      [keypress] listener of the input field.
    - [Local] embeds the stand-alone [WebApp/tasks/index.js], whose [addTask]
      only edits the page.

    The page's only task state is the DOM: the children of [#taskList] play
    the part of the task store, the [completed] class of an [<li>] is the
    completion flag of its task, and [dataset.taskId] is its identifier. *)

From Stdlib Require Import ZArith NArith Ascii String List Bool Lia.
From stdpp Require Import base decidable option list strings.

Local Open Scope string_scope.
Local Open Scope Z_scope.
Local Open Scope nat_scope.

Set Warnings "-register-all".

(** ** JavaScript values as they come out of [JSON.parse] *)

(** A string holds the UTF-8 encoding of the JavaScript string, as a string
    literal of this file does.  A number is kept as the text that
    JavaScript prints for it ([1e+21] for the JSON text [1e21], [0] for
    [-0]); the script only prints numbers and tests them for zero.
    [VUndefined] never occurs inside a parsed body; it is the value of a
    missing property or array element. *)
Inductive value : Type :=
| VUndefined
| VNull
| VBool (b : bool)
| VNum (repr : string)
| VStr (s : string)
| VArr (items : list value)
| VObj (fields : list (string * value)).

Inductive JsError : Type :=
| HttpError (status : Z)   (* new Error(`HTTP error! status: ${response.status}`) *)
| FetchError               (* the promise of fetch rejected *)
| JsonError                (* the promise of response.json() rejected *)
| TypeError.               (* raised by the engine *)

Inductive Completion (A : Type) : Type :=
| Normal (a : A)
| Throw (e : JsError).
Arguments Normal {A} a.
Arguments Throw {A} e.

Definition has_key (k : string) (fields : list (string * value)) : bool :=
  existsb (fun kv => String.eqb (fst kv) k) fields.

(** Own property of a parsed object; with duplicate keys [JSON.parse] keeps
    the last one. *)
Definition lookup_field (k : string) (fields : list (string * value)) : value :=
  default VUndefined
    (last (map snd (filter (fun kv => fst kv = k) fields))).

(** [v.k] for the keys the script reads ([id], [name], [is_completed]), none
    of which lives on a prototype: reading from [null] or [undefined] is a
    TypeError, primitives and arrays answer [undefined]. *)
Definition get_prop (v : value) (k : string) : Completion value :=
  match v with
  | VUndefined | VNull => Throw TypeError
  | VObj fields => Normal (lookup_field k fields)
  | _ => Normal VUndefined
  end.

(** ToBoolean. *)
Definition truthy (v : value) : bool :=
  match v with
  | VUndefined | VNull => false
  | VBool b => b
  | VNum repr => negb (String.eqb repr "0")
  | VStr s => negb (String.eqb s "")
  | VArr _ | VObj _ => true
  end.

(** ToString, as applied by a template literal and by a [dataset] setter.
    An array is joined with commas, [null] and [undefined] elements giving
    the empty text.  A parsed object prints through
    [Object.prototype.toString] unless it has an own [toString] key: that
    value is not callable, [valueOf] gives no primitive either, and the
    conversion is a TypeError. *)
Fixpoint join (element : value -> Completion string) (l : list value)
    : Completion string :=
  match l with
  | [] => Normal ""
  | x :: rest =>
      match (match x with
             | VUndefined | VNull => Normal ""
             | _ => element x
             end) with
      | Throw e => Throw e
      | Normal sx =>
          match rest with
          | [] => Normal sx
          | _ =>
              match join element rest with
              | Throw e => Throw e
              | Normal sr => Normal (sx ++ "," ++ sr)
              end
          end
      end
  end.

Fixpoint ToString (v : value) : Completion string :=
  match v with
  | VUndefined => Normal "undefined"
  | VNull => Normal "null"
  | VBool true => Normal "true"
  | VBool false => Normal "false"
  | VNum repr => Normal repr
  | VStr s => Normal s
  | VArr items => join ToString items
  | VObj fields =>
      if has_key "toString" fields then Throw TypeError
      else Normal "[object Object]"
  end.

(** The text of a conversion that does not throw. *)
Definition to_string (v : value) : string :=
  match ToString v with
  | Normal s => s
  | Throw _ => ""
  end.

(** The bytes of the code point that starts with [c]. *)
Definition code_point_width (c : ascii) : nat :=
  let n := N_of_ascii c in
  if (n <? 192)%N then 1 else if (n <? 224)%N then 2
  else if (n <? 240)%N then 3 else 4.

(** [const [x] = v]: the first value of the iterator of [v]; a string
    iterates over its code points. *)
Definition destructure_first (v : value) : Completion value :=
  match v with
  | VArr [] => Normal VUndefined
  | VArr (x :: _) => Normal x
  | VStr EmptyString => Normal VUndefined
  | VStr (String c rest) =>
      Normal (VStr (substring 0 (code_point_width c) (String c rest)))
  | _ => Throw TypeError
  end.

(** ** String.prototype.trim *)

(** White space and line terminators of the language, by their UTF-8
    bytes: U+0009 to U+000D and U+0020; *)
Definition is_space (c : ascii) : bool :=
  match nat_of_ascii c with
  | 9 | 10 | 11 | 12 | 13 | 32 => true
  | _ => false
  end.

(** U+00A0; *)
Definition is_space2 (a b : ascii) : bool :=
  (N_of_ascii a =? 194)%N && (N_of_ascii b =? 160)%N.

(** U+1680, U+2000 to U+200A, U+2028, U+2029, U+202F, U+205F, U+3000 and
    U+FEFF. *)
Definition is_space3 (a b c : ascii) : bool :=
  let x := N_of_ascii a in
  let y := N_of_ascii b in
  let z := N_of_ascii c in
  ((x =? 225) && (y =? 154) && (z =? 128))%N
  || ((x =? 226) && (y =? 128)
      && (((128 <=? z) && (z <=? 138)) || (z =? 168) || (z =? 169) || (z =? 175)))%N
  || ((x =? 226) && (y =? 129) && (z =? 159))%N
  || ((x =? 227) && (y =? 128) && (z =? 128))%N
  || ((x =? 239) && (y =? 187) && (z =? 191))%N.

Fixpoint trim_start (s : string) : string :=
  match s with
  | EmptyString => EmptyString
  | String a r1 =>
      if is_space a then trim_start r1
      else
        match r1 with
        | EmptyString => s
        | String b r2 =>
            if is_space2 a b then trim_start r2
            else
              match r2 with
              | EmptyString => s
              | String c r3 => if is_space3 a b c then trim_start r3 else s
              end
        end
  end.

(** A string of white space only. *)
Definition blank (s : string) : bool := String.eqb (trim_start s) "".

Fixpoint trim_end (s : string) : string :=
  match s with
  | EmptyString => EmptyString
  | String c rest => if blank s then EmptyString else String c (trim_end rest)
  end.

Definition trim (s : string) : string := trim_end (trim_start s).

(** The number of bytes of the white space code point at the head of a
    string, 0 when there is none. *)
Definition space_width (s : string) : nat :=
  match s with
  | EmptyString => 0
  | String a r1 =>
      if is_space a then 1
      else
        match r1 with
        | EmptyString => 0
        | String b r2 =>
            if is_space2 a b then 2
            else
              match r2 with
              | EmptyString => 0
              | String c _ => if is_space3 a b c then 3 else 0
              end
        end
  end.

(** ** DOMTokenList *)

Definition contains (c : string) (classList : list string) : bool :=
  existsb (String.eqb c) classList.

Definition toggle (c : string) (classList : list string) : list string :=
  if contains c classList
  then List.filter (fun x => negb (String.eqb c x)) classList
  else (classList ++ [c])%list.

(** ** What a handler leaves behind besides the list *)

Inductive Effect : Type :=
| Alert (msg : string)
| ConsoleError (msg : string) (e : JsError)
| ConsoleLog (msg : string).

(** ** The network boundary *)

Inductive Method : Type := GET | POST | PATCH.

Record Request : Type := mkRequest {
  method : Method;
  url : string;
  headers : list (string * string);
  body : option value            (* the payload handed to JSON.stringify *)
}.

(** What the two awaits [await fetch(..)] and [await response.json()] give
    back.  No handler touches the page between the two, so they are one
    suspension here; [json = None] is a body that is not JSON. *)
Inductive FetchResult : Type :=
| Rejected
| Response (status : Z) (json : option value).

(** [response.ok] *)
Definition ok (status : Z) : bool := ((200 <=? status) && (status <=? 299))%Z.

(** * The PostgREST-backed page script *)

Module Rest.

Definition API_URL : string := "http://localhost:3000/tasks".

(** ** The page *)

(** An [<li>]: its class tokens, [dataset.taskId], the [${task.name}] part of
    its [innerHTML] (the fixed markup around it is left out) and, once the
    click listener is attached, the [task] that listener closes over. *)
Record Li : Type := mkLi {
  classList : list string;
  taskId : option string;
  label : string;
  listener : option value
}.

(** Elements have identity: [nodes] holds every element ever created, an
    element is named by its position there, and [taskList] lists the
    children of [#taskList] in document order. *)
Record Page : Type := mkPage {
  nodes : list Li;
  taskList : list nat;
  taskInput : string;          (* taskInput.value *)
  effects : list Effect        (* alerts and console lines, oldest first *)
}.

Definition emit (e : Effect) (p : Page) : Page :=
  mkPage (nodes p) (taskList p) (taskInput p) (effects p ++ [e]).

Definition set_taskInput (v : string) (p : Page) : Page :=
  mkPage (nodes p) (taskList p) v (effects p).

Definition set_taskList (l : list nat) (p : Page) : Page :=
  mkPage (nodes p) l (taskInput p) (effects p).

Definition update_node (n : nat) (f : Li -> Li) (p : Page) : Page :=
  mkPage (alter f n (nodes p)) (taskList p) (taskInput p) (effects p).

(** [document.createElement('li')] *)
Definition blank_li : Li := mkLi [] None "" None.

Definition createElement (p : Page) : nat * Page :=
  (length (nodes p),
   mkPage (nodes p ++ [blank_li]) (taskList p) (taskInput p) (effects p)).

(** [taskList.appendChild(n)] for an element that is not yet in the list *)
Definition appendChild (n : nat) (p : Page) : Page :=
  set_taskList (taskList p ++ [n]) p.

(** The displayed list, read off the page. *)
Definition displayed (p : Page) : list Li :=
  omap (fun n => nodes p !! n) (taskList p).

Definition isCompleted (li : Li) : bool := contains "completed" (classList li).

Definition displayed_ids (p : Page) : list (option string) :=
  map taskId (displayed p).

(** ** Synchronous code: page state and exceptions *)

Definition Js (A : Type) : Type := Page -> Completion A * Page.

Definition ret {A} (a : A) : Js A := fun p => (Normal a, p).

Definition throw {A} (e : JsError) : Js A := fun p => (Throw e, p).

Definition bind {A B} (m : Js A) (k : A -> Js B) : Js B :=
  fun p =>
    match m p with
    | (Normal a, p') => k a p'
    | (Throw e, p') => (Throw e, p')
    end.

Notation "x <- m ;; k" := (bind m (fun x => k))
  (at level 100, m at next level, right associativity).
Notation "m ;;; k" := (bind m (fun _ => k))
  (at level 100, right associativity).

Definition lift {A} (c : Completion A) : Js A := fun p => (c, p).

Definition modify (f : Page -> Page) : Js unit := fun p => (Normal tt, f p).

(** [try { m } catch (error) { h error }], run for its effect on the page *)
Definition try_catch (m : Js unit) (h : JsError -> Page -> Page) (p : Page) : Page :=
  match m p with
  | (Normal _, p') => p'
  | (Throw e, p') => h e p'
  end.

(** [items.forEach(f)] on an array: stops at the first exception *)
Fixpoint forEach (items : list value) (f : value -> Js unit) : Js unit :=
  match items with
  | [] => ret tt
  | x :: rest => f x ;;; forEach rest f
  end.

(** ** renderTask *)

Definition initial_classes : list string :=
  ["w3-display-container"; "task-item"; "w3-white"].

Definition renderTask (task : value) : Js unit :=
  listItem <- (fun p => let (n, p') := createElement p in (Normal n, p')) ;;
  is_completed <- lift (get_prop task "is_completed") ;;
  let initialClasses :=
    if truthy is_completed
    then (initial_classes ++ ["completed"; "w3-border-green"])%list
    else (initial_classes ++ ["w3-border-theme-l1"])%list in
  (* listItem.className = initialClasses *)
  modify (update_node listItem (fun li =>
    mkLi initialClasses (taskId li) (label li) (listener li))) ;;;
  (* listItem.dataset.taskId = task.id *)
  id <- lift (get_prop task "id") ;;
  idText <- lift (ToString id) ;;
  modify (update_node listItem (fun li =>
    mkLi (classList li) (Some idText) (label li) (listener li))) ;;;
  (* listItem.innerHTML = `${task.name} ...` *)
  name <- lift (get_prop task "name") ;;
  nameText <- lift (ToString name) ;;
  modify (update_node listItem (fun li =>
    mkLi (classList li) (taskId li) nameText (listener li))) ;;;
  (* listItem.addEventListener('click', ...) *)
  modify (update_node listItem (fun li =>
    mkLi (classList li) (taskId li) (label li) (Some task))) ;;;
  modify (appendChild listItem).

(** ** Handlers that suspend on the network *)

(** A handler either finishes, or issues one request and leaves the rest of
    its body to run, on the page as it is then, when the answer arrives. *)
Inductive Step : Type :=
| Done
| Await (req : Request) (k : FetchResult -> Page -> Page).

Definition Handler : Type := Page -> Page * Step.

(** Code that follows an [await] of another async function's promise. *)
Definition and_then (h : Page * Step) (f : Page -> Page) : Page * Step :=
  match h with
  | (p, Done) => (f p, Done)
  | (p, Await req k) => (p, Await req (fun r p' => f (k r p')))
  end.

(** ** loadTasks *)

Definition loadTasks_request : Request :=
  mkRequest GET API_URL [("Accept", "application/json")] None.

Definition loadTasks_resume (r : FetchResult) : Page -> Page :=
  try_catch
    (match r with
     | Rejected => throw FetchError
     | Response status json =>
         if negb (ok status) then throw (HttpError status)
         else match json with
              | None => throw JsonError
              | Some tasks =>
                  modify (set_taskList []) ;;;
                  match tasks with
                  | VArr items => forEach items renderTask
                  | _ => throw TypeError   (* tasks.forEach is not callable *)
                  end
              end
     end)
    (fun error p =>
       emit (Alert "Failed to load tasks from API. Check console for details.")
         (emit (ConsoleError "Could not load tasks:" error) p)).

Definition loadTasks : Handler :=
  fun p => (p, Await loadTasks_request loadTasks_resume).

(** ** addTask *)

Definition addTask_request (taskName : string) : Request :=
  mkRequest POST API_URL
    [("Content-Type", "application/json"); ("Prefer", "return=representation")]
    (Some (VObj [("name", VStr taskName); ("is_completed", VBool false)])).

Definition addTask_resume (r : FetchResult) : Page -> Page :=
  try_catch
    (match r with
     | Rejected => throw FetchError
     | Response status json =>
         if negb (ok status) then throw (HttpError status)
         else match json with
              | None => throw JsonError
              | Some created =>
                  newTask <- lift (destructure_first created) ;;
                  renderTask newTask ;;;
                  modify (set_taskInput "")
              end
     end)
    (fun error p =>
       emit (Alert "Failed to add task via API. Check console for details.")
         (emit (ConsoleError "Could not add task:" error) p)).

(** The parameter [taskName = taskInput.value.trim()]; [arg = None] is a
    call without argument, for which the default applies. *)
Definition taskName_of (arg : option string) (p : Page) : string :=
  match arg with
  | Some s => s
  | None => trim (taskInput p)
  end.

Definition addTask (arg : option string) : Handler :=
  fun p =>
    let taskName := taskName_of arg p in
    if String.eqb taskName ""
    then (emit (Alert "You must write something!") p, Done)
    else (p, Await (addTask_request taskName) addTask_resume).

(** ** completeTask *)

Definition completeTask_request (taskId : value) (isCompleted : bool) : Request :=
  mkRequest PATCH (API_URL ++ "?id=eq." ++ to_string taskId)
    [("Content-Type", "application/json")]
    (Some (VObj [("is_completed", VBool isCompleted)])).

Definition completeTask_resume (taskId : value) (isCompleted : bool)
    (r : FetchResult) : Page -> Page :=
  try_catch
    (match r with
     | Rejected => throw FetchError
     | Response status _ =>
         if negb (ok status) then throw (HttpError status)
         else modify (emit (ConsoleLog
                ("Task " ++ to_string taskId ++ " status updated to "
                 ++ to_string (VBool isCompleted))))
     end)
    (fun error p =>
       emit (Alert "Failed to update task status via API. Check console for details.")
         (emit (ConsoleError "Could not update task status:" error) p)).

(** The URL is built inside the [try] block: when [taskId] cannot be
    converted to text, the [catch] block runs and nothing is sent. *)
Definition completeTask (taskId : value) (isCompleted : bool) : Handler :=
  fun p =>
    match ToString taskId with
    | Normal _ =>
        (p, Await (completeTask_request taskId isCompleted)
                  (completeTask_resume taskId isCompleted))
    | Throw error =>
        (emit (Alert "Failed to update task status via API. Check console for details.")
           (emit (ConsoleError "Could not update task status:" error) p),
         Done)
    end.

(** ** The click listener that renderTask attaches to [listItem] *)

Definition flip_classes (li : Li) : Li :=
  mkLi (toggle "w3-border-theme-l1"
          (toggle "w3-border-green" (toggle "completed" (classList li))))
       (taskId li) (label li) (listener li).

(** [on_close_btn]: [event.target.classList.contains('close-btn')] *)
Definition click (listItem : nat) (task : value) (on_close_btn : bool) : Handler :=
  fun p =>
    if on_close_btn then (p, Done)
    else
      let newStatus :=
        negb (from_option isCompleted false (nodes p !! listItem)) in
      match get_prop task "id" with
      | Throw _ => (p, Done)        (* the listener's promise rejects *)
      | Normal id =>
          and_then (completeTask id newStatus p) (update_node listItem flip_classes)
      end.

(** The [keypress] listener of the input field. *)
Definition keypress (key : string) : Handler :=
  fun p => if String.eqb key "Enter" then addTask None p else (p, Done).

(** ** The event loop *)

(** The page together with the requests that have been sent and not yet
    answered, oldest first, each with the rest of the handler that awaits
    it. *)
Record Sys : Type := mkSys {
  page : Page;
  inflight : list (Request * (FetchResult -> Page -> Page))
}.

Inductive Event : Type :=
| Load                                  (* window.onload *)
| Input (v : string)                    (* the user edits the input field *)
| Key (key : string)                    (* keypress in the input field *)
| Click (n : nat) (on_close_btn : bool) (* click on a displayed item *)
| Answer (i : nat) (r : FetchResult).   (* pending request number i settles *)

Definition dispatch (h : Handler) (s : Sys) : Sys :=
  match h (page s) with
  | (p, Done) => mkSys p (inflight s)
  | (p, Await req k) => mkSys p (inflight s ++ [(req, k)])
  end.

Definition listener_of (p : Page) (n : nat) : option value :=
  if existsb (Nat.eqb n) (taskList p)
  then match nodes p !! n with
       | Some li => listener li
       | None => None
       end
  else None.

Definition step (s : Sys) (e : Event) : Sys :=
  match e with
  | Load => dispatch loadTasks s
  | Input v => mkSys (set_taskInput v (page s)) (inflight s)
  | Key key => dispatch (keypress key) s
  | Click n on_close_btn =>
      match listener_of (page s) n with
      | Some task => dispatch (click n task on_close_btn) s
      | None => s
      end
  | Answer i r =>
      match inflight s !! i with
      | Some (_, k) => mkSys (k r (page s)) (delete i (inflight s))
      | None => s
      end
  end.

Definition run (s : Sys) (es : list Event) : Sys := fold_left step es s.

Definition initial_page : Page := mkPage [] [] "" [].
Definition initial : Sys := mkSys initial_page [].

Definition pending (s : Sys) : list Request := map fst (inflight s).

(** ** One user action carried through to the answer of its request *)

Definition complete (h : Handler) (r : FetchResult) (p : Page) : Page :=
  match h p with
  | (p', Done) => p'
  | (p', Await _ k) => k r p'
  end.

Definition requests_of (h : Handler) (p : Page) : list Request :=
  match h p with
  | (_, Done) => []
  | (_, Await req _) => [req]
  end.

(** The page while the handler's request is in flight. *)
Definition suspended (h : Handler) (p : Page) : Page := fst (h p).

Definition Reload (r : FetchResult) : Page -> Page := complete loadTasks r.

Definition Add (r : FetchResult) : Page -> Page := complete (keypress "Enter") r.

Definition Toggle (n : nat) (r : FetchResult) (p : Page) : Page :=
  match listener_of p n with
  | Some task => complete (click n task false) r p
  | None => p
  end.

End Rest.

(** * The stand-alone page script, [WebApp/tasks/index.js] *)

Module WebApp.

(** An item keeps the [${taskText}] part of its [innerHTML] as a label.
    That is what the parser makes of a text without [<]; markup in the
    text can swallow the close button or put another [.close-btn] element
    before it, which this embedding does not follow. *)
Record Li : Type := mkLi {
  classList : list string;
  label : string
}.

Record Page : Type := mkPage {
  nodes : list Li;
  taskList : list nat;
  taskInput : string;
  alerts : list string
}.

(** [if (!taskText) taskText = taskInput.value.trim()]: [None] stands for
    [null] or [undefined], and [!taskText] also holds for the empty string. *)
Definition taskText_of (taskText : option string) (p : Page) : string :=
  match taskText with
  | None | Some EmptyString => trim (taskInput p)
  | Some s => s
  end.

Definition addTask (taskText : option string) (isNew : bool) (p : Page) : Page :=
  let taskText := taskText_of taskText p in
  if String.eqb taskText ""
  then
    if isNew
    then mkPage (nodes p) (taskList p) (taskInput p)
                (alerts p ++ ["You must write something!"])
    else p
  else
    let listItem := length (nodes p) in
    let li := mkLi ["w3-display-container"; "task-item"; "w3-white";
                    "w3-border-theme-l1"] taskText in
    mkPage (nodes p ++ [li]) (taskList p ++ [listItem])
           (if isNew then "" else taskInput p) (alerts p).

(** The click listener of an item; a click on its close button reaches it
    too and is ignored. *)
Definition click (listItem : nat) (on_close_btn : bool) (p : Page) : Page :=
  if on_close_btn then p
  else
    mkPage
      (alter (fun li =>
                mkLi (toggle "w3-border-theme-l1"
                        (toggle "w3-border-green"
                           (toggle "completed" (classList li))))
                     (label li))
             listItem (nodes p))
      (taskList p) (taskInput p) (alerts p).

(** The click listener of the close button: [listItem.remove()] *)
Definition close (listItem : nat) (p : Page) : Page :=
  mkPage (nodes p)
         (List.filter (fun n => negb (Nat.eqb n listItem)) (taskList p))
         (taskInput p) (alerts p).

Definition keypress (key : string) (p : Page) : Page :=
  if String.eqb key "Enter" then addTask None true p else p.

Definition dummyTasks : list string :=
  ["Set up the local storage function.";
   "Review the Flexbox CSS for the footer.";
   "Check mobile responsiveness (max-width test).";
   "Write documentation for the project.";
   "Clear all browser cache and cookies.";
   "Buy new deep purple-themed coffee mug.";
   "Schedule weekly project review meeting.";
   "Refactor addTask() function for clarity.";
   "Integrate a time-stamping feature.";
   "Watch W3.CSS Flexbox tutorial video.";
   "Test task deletion on completed items.";
   "Finalize the project color scheme.";
   "Debug the window.onload default tasks.";
   "Push all changes to the Git repository.";
   "Research different to-do app designs.";
   "Find a new background image for the body.";
   "Write a success message upon task addition.";
   "Test scrolling in the list section.";
   "Pay the electricity bill online.";
   "Send the project link to a colleague.";
   "Plan out the next major feature (e.g., categories).";
   "Take a quick 15-minute break.";
   "Read Chapter 5 of 'Effective JavaScript.'";
   "Verify the theme links are loading correctly.";
   "Clean up the unused code comments."].

(** [window.onload] *)
Definition onload (p : Page) : Page :=
  let p' := fold_left (fun q task => addTask (Some task) false q) dummyTasks p in
  mkPage (nodes p') (taskList p') "" (alerts p').

Definition displayed (p : Page) : list Li :=
  omap (fun n => nodes p !! n) (taskList p).

End WebApp.

(** * Vocabulary of the statements *)

Import Rest.

(** A request that failed in transport: no answer, or a status outside
    200..299. *)
Definition transport_failure (r : FetchResult) : bool :=
  match r with
  | Rejected => true
  | Response status _ => negb (ok status)
  end.

(** A success status whose body is not JSON. *)
Definition decode_failure (r : FetchResult) : bool :=
  match r with
  | Response status None => ok status
  | _ => false
  end.

(** The body the handlers go on to read: parsed JSON under a success
    status. *)
Definition answer_body (r : FetchResult) : option value :=
  match r with
  | Response status (Some v) => if ok status then Some v else None
  | _ => None
  end.

(** [v.k] where it cannot throw. *)
Definition prop (v : value) (k : string) : value :=
  match get_prop v k with
  | Normal x => x
  | Throw _ => VUndefined
  end.

(** Induction on values that reaches into arrays. *)
Fixpoint value_ind_list (P : value -> Prop)
    (Hundef : P VUndefined) (Hnull : P VNull)
    (Hbool : forall b, P (VBool b)) (Hnum : forall repr, P (VNum repr))
    (Hstr : forall s, P (VStr s))
    (Harr : forall items, Forall P items -> P (VArr items))
    (Hobj : forall fields, P (VObj fields))
    (v : value) : P v :=
  match v with
  | VUndefined => Hundef
  | VNull => Hnull
  | VBool b => Hbool b
  | VNum repr => Hnum repr
  | VStr s => Hstr s
  | VArr items =>
      Harr items
        ((fix go (l : list value) : Forall P l :=
            match l with
            | [] => Forall_nil_2 P
            | x :: rest =>
                Forall_cons_2 P x rest
                  (value_ind_list P Hundef Hnull Hbool Hnum Hstr Harr Hobj x)
                  (go rest)
            end) items)
  | VObj fields => Hobj fields
  end.

(** A value whose conversion to text does not throw. *)
Definition printable (v : value) : bool :=
  match ToString v with
  | Normal _ => true
  | Throw _ => false
  end.

(** The values [renderTask] renders without throwing: not [null] or
    [undefined], with an [id] and a [name] that convert to text. *)
Definition renderable (task : value) : bool :=
  match task with
  | VUndefined | VNull => false
  | _ => printable (prop task "id") && printable (prop task "name")
  end.

(** The unfinished [<li>] that [renderTask] leaves outside the list when it
    throws on a task. *)
Definition leftover (task : value) : Li :=
  match get_prop task "is_completed" with
  | Throw _ => blank_li
  | Normal is_completed =>
      let classes :=
        if truthy is_completed
        then ["w3-display-container"; "task-item"; "w3-white";
              "completed"; "w3-border-green"]
        else ["w3-display-container"; "task-item"; "w3-white";
              "w3-border-theme-l1"] in
      match ToString (prop task "id") with
      | Throw _ => mkLi classes None "" None
      | Normal idText => mkLi classes (Some idText) "" None
      end
  end.

Fixpoint unrendered (items : list value) : list Li :=
  match items with
  | [] => []
  | x :: rest => if renderable x then unrendered rest else [leftover x]
  end.

(** The [<li>] that [renderTask] builds for a renderable task. *)
Definition render_li (task : value) : Li :=
  mkLi (if truthy (prop task "is_completed")
        then ["w3-display-container"; "task-item"; "w3-white";
              "completed"; "w3-border-green"]
        else ["w3-display-container"; "task-item"; "w3-white";
              "w3-border-theme-l1"])
       (Some (to_string (prop task "id")))
       (to_string (prop task "name"))
       (Some task).

Fixpoint renderable_prefix (items : list value) : list value :=
  match items with
  | [] => []
  | x :: rest => if renderable x then x :: renderable_prefix rest else []
  end.

(** The record a create answer carries: element 0 of what the body
    iterates over, when there is one that can be rendered. *)
Definition created_record (r : FetchResult) : option value :=
  match answer_body r with
  | Some v =>
      match destructure_first v with
      | Normal t => if renderable t then Some t else None
      | Throw _ => None
      end
  | None => None
  end.

(** The identifier under which a record is displayed. *)
Definition id_string (task : value) : option string :=
  if renderable task then Some (to_string (prop task "id")) else None.

Definition listed_ids (r : FetchResult) : list string :=
  match answer_body r with
  | Some (VArr items) => omap id_string items
  | _ => []
  end.

Definition created_id (r : FetchResult) : option string :=
  created_record r ≫= id_string.

(** Every child of the list is an element that exists. *)
Definition wf (p : Page) : Prop :=
  Forall (fun n => n < length (nodes p)) (taskList p).

(** The invariant of the display: every child exists and no identifier is
    displayed twice. *)
Definition Inv (p : Page) : Prop := wf p /\ NoDup (displayed_ids p).

(** ** Sequences of user actions, each carried through before the next *)

Inductive Op : Type :=
| OpReload (r : FetchResult)
| OpAdd (name : string) (r : FetchResult)  (* type [name], press Enter *)
| OpToggle (n : nat) (r : FetchResult).    (* click item [n] *)

Definition apply_op (p : Page) (op : Op) : Page :=
  match op with
  | OpReload r => Reload r p
  | OpAdd name r => Add r (set_taskInput name p)
  | OpToggle n r => Toggle n r p
  end.

Definition apply_ops (p : Page) (ops : list Op) : Page := fold_left apply_op ops p.

(** The backend hands out distinct identifiers: a list answer names no
    identifier twice, and a create answer names an identifier that is not
    on display. *)
Definition answer_distinct (p : Page) (op : Op) : bool :=
  match op with
  | OpReload r => bool_decide (NoDup (listed_ids r))
  | OpAdd name r =>
      if String.eqb (trim name) "" then true   (* nothing is sent *)
      else match created_id r with
           | Some i => negb (bool_decide (Some i ∈ displayed_ids p))
           | None => true
           end
  | OpToggle _ _ => true
  end.

Fixpoint backend_distinct (p : Page) (ops : list Op) : bool :=
  match ops with
  | [] => true
  | op :: rest => answer_distinct p op && backend_distinct (apply_op p op) rest
  end.

(** What [tasks.forEach(task => renderTask(task))] leaves on the page. *)
Definition after_forEach (items : list value) (q : Page) : Page :=
  let shown := renderable_prefix items in
  mkPage
    (nodes q ++ map render_li shown
       ++ unrendered items)
    (taskList q ++ seq (length (nodes q)) (length shown))
    (taskInput q) (effects q).

(** The failure branch shared by the three handlers. *)
Definition report (alert_msg console_msg : string) (e : JsError) (q : Page) : Page :=
  emit (Alert alert_msg) (emit (ConsoleError console_msg e) q).

(** The list on display once a reload has been answered. *)
Definition listing (r : FetchResult) (before : list Li) : list Li :=
  match answer_body r with
  | None => before
  | Some (VArr items) => map render_li (renderable_prefix items)
  | Some _ => []
  end.

(** ** Sample data *)

Definition milk : value :=
  VObj [("id", VStr "t1"); ("name", VStr "Buy milk"); ("is_completed", VBool false)].

Definition bread : value :=
  VObj [("id", VStr "t2"); ("name", VStr "Bake bread"); ("is_completed", VBool true)].

(** The page after a first load that listed [milk]. *)
Definition milk_page : Page :=
  Reload (Response 200 (Some (VArr [milk]))) initial_page.

(** ** Vocabulary of the further properties *)

(** The border classes follow the [completed] class: green with it,
    theme colour without it. *)
Definition borders_ok (classes : list string) : bool :=
  Bool.eqb (contains "w3-border-green" classes) (contains "completed" classes)
  && Bool.eqb (contains "w3-border-theme-l1" classes)
              (negb (contains "completed" classes)).

(** An element that [renderTask] has finished: it carries the listener of
    a task it can read, that task's identifier and name, and consistent
    borders. *)
Definition rendered (li : Li) : Prop :=
  exists task,
    listener li = Some task /\ renderable task = true /\
    taskId li = Some (to_string (prop task "id")) /\
    label li = to_string (prop task "name") /\
    borders_ok (classList li) = true.

(** Elements without listener are the ones a failed [renderTask] left
    behind; they are never in the list. *)
Definition node_ok (li : Li) : Prop := listener li = None \/ rendered li.

Definition PageInv (q : Page) : Prop :=
  wf q /\ NoDup (taskList q) /\ Forall node_ok (nodes q) /\
  Forall (fun n => exists li, nodes q !! n = Some li /\ rendered li) (taskList q).

(** *** Invariants of the event loop *)

(** [Adm req r q] says which answers [r] to the request [req], arriving on
    the page [q], are considered. *)
Definition cont_ok (P : Page -> Prop) (Adm : Request -> FetchResult -> Page -> bool)
    (e : Request * (FetchResult -> Page -> Page)) : Prop :=
  forall r q, P q -> Adm (fst e) r q = true -> P (snd e r q).

Definition handler_ok (P : Page -> Prop) (Adm : Request -> FetchResult -> Page -> bool)
    (h : Handler) : Prop :=
  forall p, P p ->
    P (fst (h p)) /\
    match snd (h p) with
    | Done => True
    | Await req k => cont_ok P Adm (req, k)
    end.

Definition SysInv (P : Page -> Prop) (Adm : Request -> FetchResult -> Page -> bool)
    (s : Sys) : Prop :=
  P (page s) /\ Forall (cont_ok P Adm) (inflight s).

Definition admissible (Adm : Request -> FetchResult -> Page -> bool)
    (s : Sys) (e : Event) : bool :=
  match e with
  | Answer i r =>
      match inflight s !! i with
      | Some (req, _) => Adm req r (page s)
      | None => true
      end
  | _ => true
  end.

Fixpoint admissible_run (Adm : Request -> FetchResult -> Page -> bool)
    (s : Sys) (es : list Event) : bool :=
  match es with
  | [] => true
  | e :: rest => admissible Adm s e && admissible_run Adm (step s e) rest
  end.

Definition any_answer : Request -> FetchResult -> Page -> bool :=
  fun _ _ _ => true.

(** Answers of a backend that hands out distinct identifiers: a list
    answer names no identifier twice, and a create answer names an
    identifier that is not on display when it arrives. *)
Definition distinct_answer (req : Request) (r : FetchResult) (q : Page) : bool :=
  match method req with
  | GET => bool_decide (NoDup (listed_ids r))
  | POST =>
      match created_id r with
      | Some i => negb (bool_decide (Some i ∈ displayed_ids q))
      | None => true
      end
  | PATCH => true
  end.

(** *** The stand-alone page and what the user can do on it *)

(** A text without [<]: as [innerHTML] it is character data only, so the
    item holds its label followed by its own close button. *)
Fixpoint plain_text (s : string) : bool :=
  match s with
  | EmptyString => true
  | String c rest => negb (Ascii.eqb c "<") && plain_text rest
  end.

Definition w_classes : list string :=
  ["w3-display-container"; "task-item"; "w3-white"; "w3-border-theme-l1"].

Definition w_isCompleted (li : WebApp.Li) : bool :=
  contains "completed" (WebApp.classList li).

Definition w_wf (w : WebApp.Page) : Prop :=
  Forall (fun n => n < length (WebApp.nodes w)) (WebApp.taskList w).

Definition w_initial : WebApp.Page := WebApp.mkPage [] [] "" [].

Inductive WEvent : Type :=
| WLoad                                   (* window.onload *)
| WInput (v : string)                     (* the user edits the input field *)
| WKey (key : string)                     (* keypress in the input field *)
| WAdd (taskText : option string) (isNew : bool)   (* a call of addTask *)
| WClick (n : nat) (on_close_btn : bool). (* click on a displayed item *)

(** A click on the close button runs the button's listener and then, as
    the event bubbles, the item's listener. *)
Definition w_step (w : WebApp.Page) (e : WEvent) : WebApp.Page :=
  match e with
  | WLoad => WebApp.onload w
  | WInput v =>
      WebApp.mkPage (WebApp.nodes w) (WebApp.taskList w) v (WebApp.alerts w)
  | WKey key => WebApp.keypress key w
  | WAdd taskText isNew => WebApp.addTask taskText isNew w
  | WClick n on_close_btn =>
      if existsb (Nat.eqb n) (WebApp.taskList w)
      then if on_close_btn
           then WebApp.click n true (WebApp.close n w)
           else WebApp.click n false w
      else w
  end.

Definition w_run (w : WebApp.Page) (es : list WEvent) : WebApp.Page :=
  fold_left w_step es w.

Definition w_inv (w : WebApp.Page) : Prop :=
  w_wf w /\ NoDup (WebApp.taskList w) /\
  Forall (fun li => borders_ok (WebApp.classList li) = true) (WebApp.nodes w).

(** ** Helper facts *)

Local Open Scope list_scope.

Section Samples.

Example trim_both_ends : trim "  Buy milk 	 " = "Buy milk".
Proof. reflexivity. Qed.

Example trim_blank : trim "   " = "".
Proof. reflexivity. Qed.

Example to_string_array :
  to_string (VArr [VNum "1"; VNull; VStr "a"; VArr [VBool true; VNum "-2"]])
  = "1,,a,true,-2".
Proof. reflexivity. Qed.

Example ToString_own_toString_key :
  (ToString (VObj [("toString", VNum "1")]),
   ToString (VArr [VStr "a"; VObj [("toString", VNull)]]),
   ToString (VObj [("valueOf", VNum "1")]),
   ToString (VNum "1e+21"))
  = (Throw TypeError, Throw TypeError, Normal "[object Object]", Normal "1e+21").
Proof. reflexivity. Qed.

Example destructure_first_code_point :
  destructure_first (VStr (String "195" (String "169" "t")))   (* U+00E9, t *)
  = Normal (VStr (String "195" (String "169" ""))).
Proof. reflexivity. Qed.

(** An input of U+00A0 only is blank: Enter alerts and sends nothing. *)
Example blank_unicode_input :
  let p := set_taskInput (String "194" (String "160" "")) initial_page in
  (requests_of (keypress "Enter") p, effects (suspended (keypress "Enter") p))
  = ([], [Alert "You must write something!"]).
Proof. reflexivity. Qed.

Example ok_range : (ok 200, ok 204, ok 299, ok 300, ok 199, ok 404)
                   = (true, true, true, false, false, false).
Proof. reflexivity. Qed.

Example lookup_field_last_wins :
  lookup_field "id" [("id", VStr "a"); ("name", VStr "n"); ("id", VStr "b")]
  = VStr "b".
Proof. reflexivity. Qed.

Example toggle_twice :
  toggle "completed" (toggle "completed" ["task-item"]) = ["task-item"].
Proof. reflexivity. Qed.

Example render_completed :
  displayed (Reload (Response 200 (Some (VArr [bread]))) initial_page) =
    [mkLi ["w3-display-container"; "task-item"; "w3-white"; "completed";
           "w3-border-green"]
          (Some "t2") "Bake bread" (Some bread)].
Proof. reflexivity. Qed.

(** The scenario of two toggles: the first succeeds, the second fails;
    the item ends not completed again, its classes flipped both times. *)
Example toggle_success_then_failure :
  map isCompleted
    (displayed (Toggle 0 Rejected (Toggle 0 (Response 204 None) milk_page)))
  = [false].
Proof. reflexivity. Qed.

Example webapp_onload_count :
  length (WebApp.displayed (WebApp.onload (WebApp.mkPage [] [] "x" []))) = 25
  /\ WebApp.taskInput (WebApp.onload (WebApp.mkPage [] [] "x" [])) = "".
Proof. split; reflexivity. Qed.

End Samples.

Section ClassList.

Lemma contains_app (c : string) (l1 l2 : list string) :
  contains c (l1 ++ l2) = contains c l1 || contains c l2.
Proof. unfold contains. apply existsb_app. Qed.

Lemma contains_filter_self (c : string) (l : list string) :
  contains c (List.filter (fun x => negb (String.eqb c x)) l) = false.
Proof.
  unfold contains. induction l as [|x l IH]; simpl; [reflexivity|].
  destruct (String.eqb c x) eqn:E; simpl; [exact IH|].
  rewrite E. exact IH.
Qed.

Lemma contains_filter_other (c d : string) (l : list string) :
  c <> d ->
  contains c (List.filter (fun x => negb (String.eqb d x)) l) = contains c l.
Proof.
  intros Hne. unfold contains. induction l as [|x l IH]; simpl; [reflexivity|].
  destruct (String.eqb d x) eqn:E; simpl.
  - apply String.eqb_eq in E. subst x.
    destruct (String.eqb c d) eqn:E'; [apply String.eqb_eq in E'; contradiction|].
    exact IH.
  - rewrite IH. reflexivity.
Qed.

Lemma contains_toggle_self (c : string) (l : list string) :
  contains c (toggle c l) = negb (contains c l).
Proof.
  unfold toggle. destruct (contains c l) eqn:E; simpl.
  - apply contains_filter_self.
  - rewrite contains_app, E. simpl. unfold contains. simpl.
    rewrite String.eqb_refl. reflexivity.
Qed.

Lemma contains_toggle_other (c d : string) (l : list string) :
  c <> d -> contains c (toggle d l) = contains c l.
Proof.
  intros Hne. unfold toggle. destruct (contains d l).
  - apply contains_filter_other. exact Hne.
  - rewrite contains_app. unfold contains at 2. simpl.
    destruct (String.eqb c d) eqn:E; [apply String.eqb_eq in E; contradiction|].
    rewrite !orb_false_r. reflexivity.
Qed.

Lemma isCompleted_flip (li : Li) :
  isCompleted (flip_classes li) = negb (isCompleted li).
Proof.
  unfold isCompleted, flip_classes. simpl.
  rewrite !contains_toggle_other by discriminate.
  apply contains_toggle_self.
Qed.

End ClassList.

Section Render.

Lemma alter_last {A} (f : A -> A) (l : list A) (x : A) :
  alter f (length l) (l ++ [x]) = l ++ [f x].
Proof.
  replace (length l) with (length l + 0) by lia.
  rewrite alter_app_r. reflexivity.
Qed.

Lemma join_TypeError (element : value -> Completion string) (l : list value)
    (e : JsError) :
  Forall (fun x => forall e', element x = Throw e' -> e' = TypeError) l ->
  join element l = Throw e -> e = TypeError.
Proof.
  induction 1 as [|x rest Hx _ IH]; simpl; [discriminate|].
  assert (Hhead : forall e',
            match x with
            | VUndefined | VNull => Normal ""
            | _ => element x
            end = Throw e' -> e' = TypeError).
  { intros e'. destruct x; try discriminate; apply Hx. }
  destruct (match x with
            | VUndefined | VNull => Normal ""
            | _ => element x
            end) as [sx|e'].
  - destruct rest as [|y rest']; [discriminate|].
    destruct (join element (y :: rest')) as [sr|e'']; [discriminate|].
    intros He. injection He as <-. apply IH. reflexivity.
  - intros He. injection He as <-. apply Hhead. reflexivity.
Qed.

Lemma ToString_TypeError (v : value) (e : JsError) :
  ToString v = Throw e -> e = TypeError.
Proof.
  revert e. induction v using value_ind_list; intros e; simpl;
    try discriminate.
  - destruct b; discriminate.
  - apply join_TypeError. exact H.
  - destruct (has_key "toString" fields); [|discriminate].
    intros He. injection He as <-. reflexivity.
Qed.

Lemma printable_ToString (v : value) :
  printable v = true -> ToString v = Normal (to_string v).
Proof.
  unfold printable, to_string. destruct (ToString v); [reflexivity|discriminate].
Qed.

Lemma not_printable_ToString (v : value) :
  printable v = false -> ToString v = Throw TypeError.
Proof.
  unfold printable. destruct (ToString v) as [s|e] eqn:E; [discriminate|].
  intros _. rewrite (ToString_TypeError v e E). reflexivity.
Qed.

Lemma get_prop_Normal (task : value) (c : value) (k : string) :
  get_prop task "is_completed" = Normal c ->
  get_prop task k = Normal (prop task k).
Proof. destruct task; intros H; try discriminate H; reflexivity. Qed.

Lemma renderable_Throw (task : value) (e : JsError) :
  get_prop task "is_completed" = Throw e -> renderable task = false /\ e = TypeError.
Proof.
  destruct task; simpl; try discriminate; intros H; injection H as <-; split; reflexivity.
Qed.

Lemma renderable_Normal (task : value) (c : value) :
  get_prop task "is_completed" = Normal c ->
  c = prop task "is_completed" /\
  renderable task = printable (prop task "id") && printable (prop task "name").
Proof.
  destruct task; simpl; try discriminate; intros H; injection H as <-; split; reflexivity.
Qed.

Lemma renderTask_renderable (task : value) (q : Page) :
  renderable task = true ->
  renderTask task q =
    (Normal tt,
     mkPage (nodes q ++ [render_li task]) (taskList q ++ [length (nodes q)])
            (taskInput q) (effects q)).
Proof.
  intros Hr.
  destruct (get_prop task "is_completed") as [c|e] eqn:Hc.
  2:{ destruct (renderable_Throw task e Hc) as [Hf _]. congruence. }
  destruct (renderable_Normal task c Hc) as [-> Hp].
  rewrite Hr in Hp. symmetry in Hp. apply andb_prop in Hp. destruct Hp as [Hid Hname].
  unfold renderTask, bind, lift, modify, createElement, appendChild,
    set_taskList, update_node. cbn [nodes taskList taskInput effects].
  rewrite Hc.
  rewrite (get_prop_Normal task _ "id" Hc), (get_prop_Normal task _ "name" Hc).
  rewrite (printable_ToString _ Hid), (printable_ToString _ Hname).
  cbn [nodes taskList taskInput effects].
  rewrite !alter_last. cbn [classList taskId label listener].
  unfold render_li, initial_classes.
  destruct (truthy (prop task "is_completed")); reflexivity.
Qed.

Lemma renderTask_not_renderable (task : value) (q : Page) :
  renderable task = false ->
  renderTask task q =
    (Throw TypeError,
     mkPage (nodes q ++ [leftover task]) (taskList q) (taskInput q) (effects q)).
Proof.
  intros Hr. unfold leftover.
  destruct (get_prop task "is_completed") as [c|e] eqn:Hc.
  2:{ destruct (renderable_Throw task e Hc) as [_ ->].
      unfold renderTask, bind, lift, createElement. rewrite Hc. reflexivity. }
  destruct (renderable_Normal task c Hc) as [-> Hp].
  rewrite Hr in Hp. symmetry in Hp.
  unfold renderTask, bind, lift, modify, createElement, appendChild,
    set_taskList, update_node. cbn [nodes taskList taskInput effects].
  rewrite Hc.
  rewrite (get_prop_Normal task _ "id" Hc), (get_prop_Normal task _ "name" Hc).
  destruct (printable (prop task "id")) eqn:Hid.
  - simpl in Hp.
    rewrite (printable_ToString _ Hid), (not_printable_ToString _ Hp).
    cbn [nodes taskList taskInput effects].
    rewrite !alter_last. cbn [classList taskId label listener].
    unfold initial_classes, to_string. rewrite (printable_ToString _ Hid).
    destruct (truthy (prop task "is_completed")); reflexivity.
  - rewrite (not_printable_ToString _ Hid).
    cbn [nodes taskList taskInput effects].
    rewrite !alter_last. cbn [classList taskId label listener].
    unfold initial_classes.
    destruct (truthy (prop task "is_completed")); reflexivity.
Qed.

Lemma forEach_renderTask (items : list value) (q : Page) :
  snd (forEach items renderTask q) = after_forEach items q.
Proof.
  revert q. induction items as [|x rest IH]; intros q.
  - destruct q; unfold after_forEach; simpl. rewrite !app_nil_r. reflexivity.
  - simpl. unfold bind at 1.
    destruct (renderable x) eqn:Hx.
    + rewrite renderTask_renderable by exact Hx.
      rewrite IH. unfold after_forEach; simpl. rewrite Hx. simpl.
      rewrite length_app. simpl.
      rewrite <- !app_assoc. simpl.
      replace (length (nodes q) + 1) with (S (length (nodes q))) by lia.
      reflexivity.
    + rewrite renderTask_not_renderable by exact Hx.
      unfold after_forEach; simpl. rewrite Hx. simpl.
      rewrite app_nil_r. reflexivity.
Qed.

Lemma forEach_renderTask_throws (items : list value) (q : Page) :
  fst (forEach items renderTask q) =
    if length (renderable_prefix items) <? length items
    then Throw TypeError else Normal tt.
Proof.
  revert q. induction items as [|x rest IH]; intros q; [reflexivity|].
  simpl. unfold bind at 1.
  destruct (renderable x) eqn:Hx.
  - rewrite renderTask_renderable by exact Hx. rewrite IH. reflexivity.
  - rewrite renderTask_not_renderable by exact Hx. reflexivity.
Qed.

(** Elements created later do not disturb the display of a list whose
    children all exist. *)
Lemma omap_lookup_app (ns extra : list Li) (tl : list nat) :
  Forall (fun n => n < length ns) tl ->
  omap (fun n => (ns ++ extra) !! n) tl = omap (fun n => ns !! n) tl.
Proof.
  induction 1 as [|n tl Hn _ IH]; csimpl; [reflexivity|].
  rewrite lookup_app_l by exact Hn. rewrite IH. reflexivity.
Qed.

Lemma omap_lookup_seq (ns new extra : list Li) :
  omap (fun n => (ns ++ new ++ extra) !! n) (seq (length ns) (length new)) = new.
Proof.
  revert ns. induction new as [|x new IH]; intros ns; csimpl; [reflexivity|].
  rewrite lookup_app_r by lia. rewrite Nat.sub_diag. csimpl.
  specialize (IH (ns ++ [x])). rewrite length_app in IH. simpl in IH.
  replace (length ns + 1) with (S (length ns)) in IH by lia.
  rewrite <- app_assoc in IH. simpl in IH. rewrite IH. reflexivity.
Qed.

Lemma displayed_after_forEach (items : list value) (q : Page) :
  wf q ->
  displayed (after_forEach items q) =
    displayed q ++ map render_li (renderable_prefix items).
Proof.
  intros Hwf. unfold displayed, after_forEach. simpl.
  rewrite omap_app. f_equal.
  - apply omap_lookup_app. exact Hwf.
  - rewrite <- (length_map render_li). apply omap_lookup_seq.
Qed.

End Render.

Section Handlers.

Lemma displayed_emit (e : Effect) (q : Page) : displayed (emit e q) = displayed q.
Proof. reflexivity. Qed.

Lemma displayed_set_taskInput (v : string) (q : Page) :
  displayed (set_taskInput v q) = displayed q.
Proof. reflexivity. Qed.


(** *** loadTasks *)

Lemma loadTasks_resume_no_body (r : FetchResult) (q : Page) :
  answer_body r = None ->
  exists e,
    loadTasks_resume r q =
      report "Failed to load tasks from API. Check console for details."
             "Could not load tasks:" e q.
Proof.
  intros Hb. unfold loadTasks_resume, try_catch, report.
  destruct r as [|status [v|]]; simpl in *.
  - eexists; reflexivity.
  - destruct (ok status); [discriminate Hb|]. simpl. eexists; reflexivity.
  - destruct (ok status); simpl; eexists; reflexivity.
Qed.

Lemma loadTasks_resume_array (r : FetchResult) (items : list value) (q : Page) :
  answer_body r = Some (VArr items) ->
  exists log,
    loadTasks_resume r q =
      mkPage (nodes (after_forEach items (set_taskList [] q)))
             (taskList (after_forEach items (set_taskList [] q)))
             (taskInput q) (effects q ++ log).
Proof.
  intros Hb. unfold loadTasks_resume, try_catch.
  destruct r as [|status [v|]]; simpl in Hb; try discriminate Hb.
  destruct (ok status); [|discriminate Hb]. injection Hb as ->. simpl.
  unfold bind at 1, modify at 1.
  pose proof (forEach_renderTask items (set_taskList [] q)) as Hs.
  pose proof (forEach_renderTask_throws items (set_taskList [] q)) as Hf.
  destruct (forEach items renderTask (set_taskList [] q)) as [c q'].
  simpl in Hs, Hf. subst q'.
  destruct c as [[]|e].
  - exists []. rewrite app_nil_r. reflexivity.
  - eexists [_; _]. unfold emit. simpl. rewrite <- app_assoc. reflexivity.
Qed.

Lemma loadTasks_resume_not_array (r : FetchResult) (v : value) (q : Page) :
  answer_body r = Some v ->
  (forall items, v <> VArr items) ->
  loadTasks_resume r q =
    report "Failed to load tasks from API. Check console for details."
           "Could not load tasks:" TypeError (set_taskList [] q).
Proof.
  intros Hb Hv. unfold loadTasks_resume, try_catch.
  destruct r as [|status [w|]]; simpl in Hb; try discriminate Hb.
  destruct (ok status); [|discriminate Hb]. injection Hb as ->. simpl.
  destruct v; try reflexivity. exfalso. eapply Hv. reflexivity.
Qed.


Lemma displayed_Reload (r : FetchResult) (p : Page) :
  displayed (Reload r p) = listing r (displayed p).
Proof.
  unfold Reload, complete, loadTasks, listing.
  destruct (answer_body r) as [v|] eqn:Hb.
  - destruct v;
      try (rewrite (loadTasks_resume_not_array r _ p Hb) by discriminate;
           reflexivity).
    destruct (loadTasks_resume_array r items p Hb) as [log ->].
    change (displayed (after_forEach items (set_taskList [] p)) =
            map render_li (renderable_prefix items)).
    rewrite displayed_after_forEach by constructor. reflexivity.
  - destruct (loadTasks_resume_no_body r p Hb) as [e ->]. reflexivity.
Qed.

(** *** addTask *)

Lemma addTask_resume_created (r : FetchResult) (t : value) (q : Page) :
  created_record r = Some t ->
  addTask_resume r q =
    mkPage (nodes q ++ [render_li t]) (taskList q ++ [length (nodes q)])
           "" (effects q).
Proof.
  unfold created_record. intros Hc.
  destruct (answer_body r) as [v|] eqn:Hb; [|discriminate Hc].
  destruct (destructure_first v) as [t'|] eqn:Hd; [|discriminate Hc].
  destruct (renderable t') eqn:Hr; [|discriminate Hc]. injection Hc as ->.
  unfold addTask_resume, try_catch.
  destruct r as [|status [w|]]; simpl in Hb; try discriminate Hb.
  destruct (ok status); [|discriminate Hb]. injection Hb as ->. simpl.
  unfold bind at 1, lift at 1. rewrite Hd.
  unfold bind. rewrite renderTask_renderable by exact Hr. reflexivity.
Qed.

Lemma addTask_resume_failed (r : FetchResult) (q : Page) :
  created_record r = None ->
  exists e extra,
    addTask_resume r q =
      report "Failed to add task via API. Check console for details."
             "Could not add task:" e
             (mkPage (nodes q ++ extra) (taskList q) (taskInput q) (effects q)).
Proof.
  unfold created_record. intros Hc.
  unfold addTask_resume, try_catch, report.
  destruct r as [|status [v|]]; simpl in *.
  - exists FetchError, []. rewrite app_nil_r. destruct q; reflexivity.
  - destruct (ok status); simpl.
    + unfold bind at 1, lift at 1.
      destruct (destructure_first v) as [t|e] eqn:Hd.
      * destruct (renderable t) eqn:Hr; [discriminate Hc|].
        unfold bind. rewrite renderTask_not_renderable by exact Hr.
        exists TypeError, [leftover t]. reflexivity.
      * exists e, []. rewrite app_nil_r. destruct q; reflexivity.
    + exists (HttpError status), []. rewrite app_nil_r. destruct q; reflexivity.
  - destruct (ok status); simpl.
    + exists JsonError, []. rewrite app_nil_r. destruct q; reflexivity.
    + exists (HttpError status), []. rewrite app_nil_r. destruct q; reflexivity.
Qed.

Lemma failure_no_record (r : FetchResult) :
  transport_failure r || decode_failure r = true -> created_record r = None.
Proof.
  unfold created_record, answer_body.
  destruct r as [|status [v|]]; simpl; try reflexivity.
  destruct (ok status); simpl; [discriminate|reflexivity].
Qed.

Lemma created_record_renderable (r : FetchResult) (t : value) :
  created_record r = Some t -> renderable t = true.
Proof.
  unfold created_record. intros Hc.
  destruct (answer_body r) as [v|]; [|discriminate Hc].
  destruct (destructure_first v) as [a|]; [|discriminate Hc].
  destruct (renderable a) eqn:Ha; [|discriminate Hc].
  injection Hc as <-. exact Ha.
Qed.

Lemma keypress_Enter (p : Page) : keypress "Enter" p = addTask None p.
Proof. reflexivity. Qed.

Lemma eqb_empty_false (s : string) : s <> "" -> String.eqb s "" = false.
Proof. intros H. apply String.eqb_neq. exact H. Qed.

(** *** completeTask and the click listener *)

Lemma completeTask_resume_page (id : value) (b : bool) (r : FetchResult) (q : Page) :
  exists log,
    completeTask_resume id b r q =
      mkPage (nodes q) (taskList q) (taskInput q) (effects q ++ log) /\
    (transport_failure r = true ->
     exists e,
       log = [ConsoleError "Could not update task status:" e;
              Alert "Failed to update task status via API. Check console for details."]).
Proof.
  unfold completeTask_resume, try_catch.
  destruct r as [|status json]; simpl.
  - eexists [_; _]. split.
    + unfold emit. simpl. rewrite <- app_assoc. reflexivity.
    + intros _. eexists. reflexivity.
  - destruct (ok status); simpl.
    + eexists [_]. split; [reflexivity|discriminate].
    + eexists [_; _]. split.
      * unfold emit. simpl. rewrite <- app_assoc. reflexivity.
      * intros _. eexists. reflexivity.
Qed.

End Handlers.

(** * Toggle *)

Section ToggleFacts.

Lemma get_prop_renderable (task : value) (k : string) :
  renderable task = true -> get_prop task k = Normal (prop task k).
Proof. destruct task; intros H; try discriminate H; reflexivity. Qed.

Lemma renderable_id_ToString (task : value) :
  renderable task = true ->
  ToString (prop task "id") = Normal (to_string (prop task "id")).
Proof.
  intros Hr. apply printable_ToString.
  destruct task; try discriminate Hr;
    cbv beta iota delta [renderable] in Hr;
    apply andb_prop in Hr; apply Hr.
Qed.

Lemma completeTask_renderable (task : value) (b : bool) (p : Page) :
  renderable task = true ->
  completeTask (prop task "id") b p =
    (p, Await (completeTask_request (prop task "id") b)
              (completeTask_resume (prop task "id") b)).
Proof.
  intros Hr. unfold completeTask.
  rewrite (renderable_id_ToString task Hr). reflexivity.
Qed.

Lemma listener_of_Some (p : Page) (n : nat) (li : Li) (task : value) :
  In n (taskList p) -> nodes p !! n = Some li -> listener li = Some task ->
  listener_of p n = Some task.
Proof.
  intros Hin Hn Hl. unfold listener_of.
  replace (existsb (Nat.eqb n) (taskList p)) with true.
  - rewrite Hn. exact Hl.
  - symmetry. apply existsb_exists. exists n. split; [exact Hin|].
    apply Nat.eqb_refl.
Qed.

(** A click on a displayed item, carried through to the answer, whatever
    the answer is. *)
Lemma Toggle_page (p : Page) (n : nat) (li : Li) (task : value) (r : FetchResult) :
  In n (taskList p) -> nodes p !! n = Some li -> listener li = Some task ->
  renderable task = true ->
  Toggle n r p =
    update_node n flip_classes
      (completeTask_resume (prop task "id") (negb (isCompleted li)) r p).
Proof.
  intros Hin Hn Hl Hr. unfold Toggle.
  rewrite (listener_of_Some p n li task Hin Hn Hl).
  unfold complete, click. rewrite (get_prop_renderable task "id" Hr).
  rewrite Hn. cbn [from_option].
  rewrite (completeTask_renderable task _ p Hr). reflexivity.
Qed.

End ToggleFacts.

(** C1, as stated, fails: on the page that displays [milk], not completed,
    a click whose PATCH request is rejected by the network leaves the item
    completed; the flip is not reverted. *)
Lemma toggle_failure_not_reverted :
  (isCompleted <$> nodes milk_page !! 0) = Some false /\
  transport_failure Rejected = true /\
  (isCompleted <$> nodes (Toggle 0 Rejected milk_page) !! 0) = Some true.
Proof. repeat split. Qed.

(** C1, amended: for every displayed item with completion value [b], a
    Toggle whose update request fails (no answer, or a status outside
    200..299) leaves the item with completion value [negb b].  The classes
    are flipped after [completeTask] returns, exactly as on success; the
    failure only adds a console line and an alert, and the list keeps its
    children. *)
Theorem toggle_failure_keeps_flip
    (p : Page) (n : nat) (li : Li) (task : value) (r : FetchResult) :
  In n (taskList p) -> nodes p !! n = Some li -> listener li = Some task ->
  renderable task = true ->
  transport_failure r = true ->
  (isCompleted <$> nodes (Toggle n r p) !! n) = Some (negb (isCompleted li)) /\
  taskList (Toggle n r p) = taskList p /\
  exists e,
    effects (Toggle n r p) =
      effects p ++
        [ConsoleError "Could not update task status:" e;
         Alert "Failed to update task status via API. Check console for details."].
Proof.
  intros Hin Hn Hl Hr Hfail.
  rewrite (Toggle_page p n li task r Hin Hn Hl Hr).
  destruct (completeTask_resume_page (prop task "id") (negb (isCompleted li)) r p)
    as [log [-> Hlog]].
  destruct (Hlog Hfail) as [e ->].
  unfold update_node; simpl. repeat split.
  - rewrite list_lookup_alter_eq, Hn. simpl. rewrite isCompleted_flip. reflexivity.
  - exists e. reflexivity.
Qed.

Lemma toggle_failure_keeps_flip_witness :
  (isCompleted <$> nodes (Toggle 0 (Response 500 None) milk_page) !! 0) = Some true.
Proof.
  refine (proj1 (toggle_failure_keeps_flip milk_page 0 (render_li milk) milk
                   (Response 500 None) _ _ _ _ _)).
  - simpl. left. reflexivity.
  - reflexivity.
  - reflexivity.
  - reflexivity.
  - reflexivity.
Defined.

(** * Add *)

(** C2, as stated, fails: with "Buy milk" typed on the empty page, the
    POST request is sent while the list is still empty; no placeholder
    item has been inserted before the network call. *)
Lemma add_inserts_no_placeholder :
  let p := set_taskInput "Buy milk" initial_page in
  requests_of (keypress "Enter") p = [addTask_request "Buy milk"] /\
  displayed (suspended (keypress "Enter") p) = [] /\
  length (displayed (suspended (keypress "Enter") p)) <> S (length (displayed p)).
Proof. repeat split. simpl. discriminate. Qed.

(** C2, amended: for every non-empty name, Add sends the create request
    with the page untouched (no placeholder is inserted), and if the create
    fails (no record can be taken from the answer) the list of children and
    every existing element are as they were when the answer arrived, so the
    task count after a failed Add equals the count before it. *)
Theorem add_failure_leaves_list
    (p : Page) (r : FetchResult) :
  trim (taskInput p) <> "" ->
  created_record r = None ->
  wf p ->
  suspended (keypress "Enter") p = p /\
  requests_of (keypress "Enter") p = [addTask_request (trim (taskInput p))] /\
  taskList (Add r p) = taskList p /\
  displayed (Add r p) = displayed p /\
  length (displayed (Add r p)) = length (displayed p).
Proof.
  intros Hname Hfail Hwf.
  unfold suspended, requests_of, Add, complete.
  rewrite keypress_Enter. unfold addTask, taskName_of.
  rewrite (eqb_empty_false _ Hname). simpl.
  destruct (addTask_resume_failed r p Hfail) as [e [extra ->]].
  assert (Hd : displayed
            (report "Failed to add task via API. Check console for details."
               "Could not add task:" e
               (mkPage (nodes p ++ extra) (taskList p) (taskInput p) (effects p)))
          = displayed p).
  { unfold displayed. simpl. apply omap_lookup_app. exact Hwf. }
  repeat split; try reflexivity.
  - exact Hd.
  - rewrite Hd. reflexivity.
Qed.

Lemma add_failure_leaves_list_witness :
  displayed (Add Rejected (set_taskInput "Buy bread" milk_page)) =
  displayed (set_taskInput "Buy bread" milk_page).
Proof.
  refine (proj1 (proj2 (proj2 (proj2
    (add_failure_leaves_list (set_taskInput "Buy bread" milk_page) Rejected _ _ _))))).
  - simpl. discriminate.
  - reflexivity.
  - repeat constructor.
Defined.

(** C3, as stated, fails: a 201 answer whose body is the single JSON
    object [milk] is not accepted.  Destructuring it throws, nothing is
    displayed and the failure alert is raised. *)
Lemma create_single_object_rejected :
  let p := set_taskInput "Buy milk" initial_page in
  displayed (Add (Response 201 (Some milk)) p) = [] /\
  effects (Add (Response 201 (Some milk)) p) =
    [ConsoleError "Could not add task:" TypeError;
     Alert "Failed to add task via API. Check console for details."] /\
  displayed (Add (Response 201 (Some (VArr [milk]))) p) = [render_li milk].
Proof. repeat split. Qed.

(** C3, amended: for every create answer with a success status, the client
    adopts element 0 when the body is a JSON array that starts with a
    value [renderTask] can render (not null, with an id and a name that
    convert to text); when the body is a single JSON object, the task is
    not adopted: the page keeps its list and its input and reports a
    TypeError. *)
Theorem create_answer_array_only
    (q : Page) (status : Z) :
  ok status = true ->
  (forall t rest, renderable t = true ->
     addTask_resume (Response status (Some (VArr (t :: rest)))) q =
       mkPage (nodes q ++ [render_li t]) (taskList q ++ [length (nodes q)])
              "" (effects q)) /\
  (forall fields,
     addTask_resume (Response status (Some (VObj fields))) q =
       report "Failed to add task via API. Check console for details."
              "Could not add task:" TypeError q).
Proof.
  intros Hok. split.
  - intros t rest Hr. apply addTask_resume_created.
    unfold created_record. simpl. rewrite Hok. simpl. rewrite Hr. reflexivity.
  - intros fields. unfold addTask_resume, try_catch. rewrite Hok. reflexivity.
Qed.

Lemma create_answer_array_only_witness :
  addTask_resume (Response 201 (Some (VObj [("id", VStr "t1")]))) milk_page =
    report "Failed to add task via API. Check console for details."
           "Could not add task:" TypeError milk_page.
Proof.
  refine (proj2 (create_answer_array_only milk_page 201 _) [("id", VStr "t1")]).
  reflexivity.
Defined.

(** * Reload *)

(** A reload that got no body to read (no answer, a status outside
    200..299, or a body that is not JSON) only reports the failure. *)
Lemma reload_without_body_keeps_page (p : Page) (r : FetchResult) :
  answer_body r = None ->
  nodes (Reload r p) = nodes p /\
  taskList (Reload r p) = taskList p /\
  taskInput (Reload r p) = taskInput p.
Proof.
  intros Hb. unfold Reload, complete, loadTasks.
  destruct (loadTasks_resume_no_body r p Hb) as [e ->].
  repeat split.
Qed.

(** C4: the list is emptied before the answer is known to be an array.  On
    the page that displays [milk], a reload answered with status 200 and
    the JSON body [{}] ends in the failure alert with nothing on display. *)
Theorem reload_non_array_clears_list :
  let r := Response 200 (Some (VObj [])) in
  displayed milk_page = [render_li milk] /\
  displayed (Reload r milk_page) = [] /\
  effects (Reload r milk_page) =
    [ConsoleError "Could not load tasks:" TypeError;
     Alert "Failed to load tasks from API. Check console for details."].
Proof. repeat split. Qed.

(** C5: when the name is empty, which for a call without argument means
    that the trimmed input is empty, [addTask] sends no request and only
    raises an alert: elements, list and input are untouched.  The same
    holds for the stand-alone script, which touches nothing but the alert
    log. *)
Theorem add_empty_name_sends_nothing
    (p : Page) (arg : option string)
    (w : WebApp.Page) (taskText : option string) (isNew : bool) :
  taskName_of arg p = "" ->
  WebApp.taskText_of taskText w = "" ->
  (requests_of (addTask arg) p = [] /\
   suspended (addTask arg) p = emit (Alert "You must write something!") p /\
   displayed (suspended (addTask arg) p) = displayed p) /\
  (WebApp.nodes (WebApp.addTask taskText isNew w) = WebApp.nodes w /\
   WebApp.taskList (WebApp.addTask taskText isNew w) = WebApp.taskList w /\
   WebApp.taskInput (WebApp.addTask taskText isNew w) = WebApp.taskInput w).
Proof.
  intros Hp Hw. split.
  - unfold requests_of, suspended, addTask. rewrite Hp. simpl. repeat split.
  - unfold WebApp.addTask. rewrite Hw. simpl. destruct isNew; repeat split.
Qed.

Lemma add_empty_name_sends_nothing_witness :
  requests_of (keypress "Enter") (set_taskInput "   " milk_page) = [] /\
  WebApp.taskInput (WebApp.keypress "Enter" (WebApp.mkPage [] [] "  " [])) = "  ".
Proof.
  pose proof (add_empty_name_sends_nothing (set_taskInput "   " milk_page) None
                (WebApp.mkPage [] [] "  " []) None true eq_refl eq_refl) as H.
  split.
  - exact (proj1 (proj1 H)).
  - exact (proj2 (proj2 (proj2 H))).
Defined.

(** C6: a successful Add ends with the list it found plus one item built
    from the created record, and no other item was added, neither while the
    request was in flight nor afterwards.  The item carries the record's
    identifier as JavaScript prints it: a string as it is, a number by its
    digits, [true], [false] and [null] by their names, a missing id as
    "undefined", an array by its elements joined with commas and a plain
    object as "[object Object]". *)
Theorem add_adopts_created_id
    (p : Page) (r : FetchResult) (t : value) :
  trim (taskInput p) <> "" ->
  wf p ->
  created_record r = Some t ->
  displayed (suspended (keypress "Enter") p) = displayed p /\
  displayed (Add r p) = displayed p ++ [render_li t] /\
  exists idText,
    taskId (render_li t) = Some idText /\
    displayed_ids (Add r p) = displayed_ids p ++ [Some idText] /\
    ToString (prop t "id") = Normal idText /\
    (forall s, prop t "id" = VStr s -> idText = s) /\
    (forall s, prop t "id" = VNum s -> idText = s) /\
    (forall b, prop t "id" = VBool b -> idText = if b then "true" else "false") /\
    (prop t "id" = VNull -> idText = "null") /\
    (prop t "id" = VUndefined -> idText = "undefined") /\
    (forall items, prop t "id" = VArr items -> join ToString items = Normal idText) /\
    (forall fields, prop t "id" = VObj fields ->
       has_key "toString" fields = false /\ idText = "[object Object]").
Proof.
  intros Hname Hwf Hc.
  assert (Hadd : displayed (Add r p) = displayed p ++ [render_li t]).
  { unfold Add, complete. rewrite keypress_Enter. unfold addTask, taskName_of.
    rewrite (eqb_empty_false _ Hname).
    rewrite (addTask_resume_created r t p Hc).
    unfold displayed. simpl. rewrite omap_app. f_equal.
    - apply omap_lookup_app. exact Hwf.
    - csimpl. rewrite lookup_app_r by lia. rewrite Nat.sub_diag. reflexivity. }
  pose proof (renderable_id_ToString t (created_record_renderable r t Hc)) as Hid.
  split; [|split; [exact Hadd|]].
  - unfold suspended. rewrite keypress_Enter. unfold addTask, taskName_of.
    rewrite (eqb_empty_false _ Hname). reflexivity.
  - exists (to_string (prop t "id")).
    split; [reflexivity|]. split.
    { unfold displayed_ids. rewrite Hadd, map_app. reflexivity. }
    split; [exact Hid|].
    split; [intros s Hs; rewrite Hs; reflexivity|].
    split; [intros s Hs; rewrite Hs; reflexivity|].
    split; [intros b Hb; rewrite Hb; destruct b; reflexivity|].
    split; [intros Hn; rewrite Hn; reflexivity|].
    split; [intros Hu; rewrite Hu; reflexivity|].
    split.
    + intros items Hi. rewrite <- Hid, Hi. reflexivity.
    + intros fields Hf. rewrite Hf in Hid. simpl in Hid.
      destruct (has_key "toString" fields) eqn:Hk; [discriminate Hid|].
      split; [reflexivity|].
      rewrite Hf. unfold to_string. simpl. rewrite Hk. reflexivity.
Qed.

Lemma add_adopts_created_id_witness :
  displayed (Add (Response 201 (Some (VArr [milk])))
               (set_taskInput "Buy milk" initial_page)) =
    [mkLi ["w3-display-container"; "task-item"; "w3-white"; "w3-border-theme-l1"]
          (Some "t1") "Buy milk" (Some milk)].
Proof.
  refine (proj1 (proj2 (add_adopts_created_id
            (set_taskInput "Buy milk" initial_page)
            (Response 201 (Some (VArr [milk]))) milk _ _ _))).
  - simpl. discriminate.
  - constructor.
  - reflexivity.
Defined.

(** C7: two reloads in a row that get the same answer leave the same
    ordered list on display after each; and an answer that is an array of
    values [renderTask] can render (not null, with an id and a name that
    convert to text) is displayed item for item in the array's order. *)
Theorem reload_idempotent (p : Page) (r : FetchResult) :
  displayed (Reload r (Reload r p)) = displayed (Reload r p) /\
  (forall status items,
     r = Response status (Some (VArr items)) ->
     ok status = true ->
     forallb renderable items = true ->
     displayed (Reload r p) = map render_li items).
Proof.
  split.
  - rewrite !displayed_Reload. unfold listing.
    destruct (answer_body r) as [[]|]; reflexivity.
  - intros status items -> Hok Hall.
    rewrite displayed_Reload. unfold listing. simpl. rewrite Hok.
    f_equal. clear Hok.
    induction items as [|x items IH]; [reflexivity|].
    simpl in *. apply andb_prop in Hall. destruct Hall as [Hx Hall].
    rewrite Hx, IH by exact Hall. reflexivity.
Qed.

Lemma reload_idempotent_witness :
  displayed (Reload (Response 200 (Some (VArr [bread; milk]))) milk_page) =
    [render_li bread; render_li milk].
Proof.
  refine (proj2 (reload_idempotent milk_page
                   (Response 200 (Some (VArr [bread; milk]))))
                200%Z [bread; milk] _ _ _); reflexivity.
Defined.

(** * One task per identifier *)

Section Distinct.

Lemma ids_of_rendered (items : list value) :
  map taskId (map render_li (renderable_prefix items)) =
  map Some (omap id_string (renderable_prefix items)).
Proof.
  induction items as [|x items IH]; [reflexivity|].
  simpl. destruct (renderable x) eqn:Hx; [|reflexivity].
  assert (Hid : id_string x = Some (to_string (prop x "id")))
    by (unfold id_string; rewrite Hx; reflexivity).
  csimpl. rewrite Hid. simpl. rewrite IH. reflexivity.
Qed.

Lemma rendered_ids_sublist (items : list value) :
  sublist (omap id_string (renderable_prefix items)) (omap id_string items).
Proof.
  induction items as [|x items IH]; [constructor|].
  simpl. destruct (renderable x) eqn:Hx.
  - assert (Hid : id_string x = Some (to_string (prop x "id")))
      by (unfold id_string; rewrite Hx; reflexivity).
    csimpl. rewrite Hid. apply sublist_skip. exact IH.
  - apply sublist_nil_l.
Qed.

Lemma NoDup_map_Some (l : list string) : NoDup l -> NoDup (map Some l).
Proof.
  intros H. change (NoDup (Some <$> l)).
  apply NoDup_fmap_2; [apply _|exact H].
Qed.

Lemma wf_after_forEach (items : list value) (q : Page) :
  wf (after_forEach items (set_taskList [] q)).
Proof.
  unfold wf, after_forEach. simpl. apply Forall_forall. intros n Hn.
  apply list_elem_of_In, in_seq in Hn.
  rewrite !length_app, length_map. lia.
Qed.

Lemma Reload_inv (p : Page) (r : FetchResult) :
  Inv p -> NoDup (listed_ids r) -> Inv (Reload r p).
Proof.
  intros [Hwf Hnd] Hr. split.
  - unfold Reload, complete, loadTasks.
    destruct (answer_body r) as [v|] eqn:Hb.
    + destruct v;
        try (rewrite (loadTasks_resume_not_array r _ p Hb) by discriminate;
             constructor).
      destruct (loadTasks_resume_array r items p Hb) as [log ->].
      apply (wf_after_forEach items p).
    + destruct (loadTasks_resume_no_body r p Hb) as [e ->]. exact Hwf.
  - unfold displayed_ids. rewrite displayed_Reload. unfold listing.
    unfold listed_ids in Hr.
    destruct (answer_body r) as [v|]; [|exact Hnd].
    destruct v; try constructor.
    rewrite ids_of_rendered. apply NoDup_map_Some.
    exact (sublist_NoDup _ _ Hr (rendered_ids_sublist items)).
Qed.

Lemma Add_inv (p : Page) (name : string) (r : FetchResult) :
  Inv p -> answer_distinct p (OpAdd name r) = true ->
  Inv (Add r (set_taskInput name p)).
Proof.
  intros [Hwf Hnd] Hfresh. unfold Add, complete.
  rewrite keypress_Enter. unfold addTask, taskName_of.
  simpl in Hfresh. simpl taskInput.
  destruct (String.eqb (trim name) ""); [split; assumption|].
  unfold created_id in Hfresh.
  destruct (created_record r) as [t|] eqn:Hc.
  - rewrite (addTask_resume_created r t _ Hc). simpl.
    assert (Ht : renderable t = true).
    { unfold created_record in Hc.
      destruct (answer_body r); [|discriminate Hc].
      destruct (destructure_first v); [|discriminate Hc].
      destruct (renderable a) eqn:Ha; [|discriminate Hc].
      injection Hc as <-. exact Ha. }
    simpl in Hfresh. unfold id_string in Hfresh. rewrite Ht in Hfresh.
    apply negb_true_iff, bool_decide_eq_false in Hfresh.
    split.
    + unfold wf in *. simpl. rewrite length_app. simpl.
      apply Forall_app. split.
      * eapply Forall_impl; [exact Hwf|]. simpl. intros; lia.
      * constructor; [lia|constructor].
    + unfold displayed_ids, displayed in *. simpl.
      rewrite omap_app, omap_lookup_app by exact Hwf.
      csimpl. rewrite lookup_app_r by lia. rewrite Nat.sub_diag. csimpl.
      rewrite map_app. simpl.
      apply NoDup_app. repeat split.
      * exact Hnd.
      * intros x Hx Hx'. apply list_elem_of_singleton in Hx'. subst x.
        apply Hfresh. exact Hx.
      * apply NoDup_singleton.
  - destruct (addTask_resume_failed r (set_taskInput name p) Hc) as [e [extra ->]].
    split.
    + unfold wf in *. simpl. rewrite length_app.
      eapply Forall_impl; [exact Hwf|]. simpl. intros; lia.
    + unfold displayed_ids, displayed in *. simpl.
      rewrite omap_lookup_app by exact Hwf. exact Hnd.
Qed.

Lemma Toggle_cases (p : Page) (n : nat) (r : FetchResult) :
  Toggle n r p = p \/
  exists log,
    Toggle n r p =
      update_node n flip_classes
        (mkPage (nodes p) (taskList p) (taskInput p) (effects p ++ log)).
Proof.
  unfold Toggle. destruct (listener_of p n) as [task|]; [|left; reflexivity].
  unfold complete, click.
  destruct (get_prop task "id") as [id|e]; [|left; reflexivity].
  right. unfold completeTask.
  destruct (ToString id) as [text|e].
  - cbn [and_then].
    destruct (completeTask_resume_page id
                (negb (from_option isCompleted false (nodes p !! n))) r p)
      as [log [-> _]].
    exists log. reflexivity.
  - cbn [and_then]. eexists [_; _]. unfold emit. simpl.
    rewrite <- app_assoc. reflexivity.
Qed.

Lemma ids_update_node_flip (ns : list Li) (n : nat) (tl : list nat) :
  map taskId (omap (fun m => alter flip_classes n ns !! m) tl) =
  map taskId (omap (fun m => ns !! m) tl).
Proof.
  induction tl as [|m tl IH]; [reflexivity|].
  csimpl. rewrite list_lookup_alter.
  destruct (decide (n = m)) as [->|Hne].
  - destruct (ns !! m) as [li|]; simpl; [|exact IH].
    rewrite IH. reflexivity.
  - destruct (ns !! m) as [li|]; simpl; [|exact IH].
    rewrite IH. reflexivity.
Qed.

Lemma Toggle_inv (p : Page) (n : nat) (r : FetchResult) :
  Inv p -> Inv (Toggle n r p).
Proof.
  intros [Hwf Hnd].
  destruct (Toggle_cases p n r) as [-> | [log ->]]; [split; assumption|].
  split.
  - unfold wf, update_node in *. simpl. rewrite length_alter. exact Hwf.
  - unfold displayed_ids, displayed, update_node in *. simpl.
    rewrite ids_update_node_flip. exact Hnd.
Qed.

Lemma apply_ops_inv (ops : list Op) (p : Page) :
  Inv p -> backend_distinct p ops = true -> Inv (apply_ops p ops).
Proof.
  revert p. induction ops as [|op ops IH]; intros p Hinv Hd; [exact Hinv|].
  simpl in Hd. apply andb_prop in Hd. destruct Hd as [Hop Hrest].
  simpl. apply IH; [|exact Hrest].
  destruct op as [r|name r|n r]; simpl.
  - apply Reload_inv; [exact Hinv|].
    simpl in Hop. apply bool_decide_eq_true in Hop. exact Hop.
  - apply Add_inv; assumption.
  - apply Toggle_inv. exact Hinv.
Qed.

Lemma apply_ops_distinct_from_initial (ops : list Op) :
  backend_distinct initial_page ops = true ->
  wf (apply_ops initial_page ops) /\
  NoDup (displayed_ids (apply_ops initial_page ops)).
Proof.
  intros Hd. apply (apply_ops_inv ops initial_page); [|exact Hd].
  split; constructor.
Qed.

End Distinct.

(** C8, amended: starting from the empty page, after any sequence of
    reloads, adds and toggles in which each action is answered before the
    next one starts, no identifier is displayed twice, provided every list
    answer names each identifier once and every create answer names an
    identifier that is not on display. *)
Theorem one_task_per_identifier (ops : list Op) :
  backend_distinct initial_page ops = true ->
  NoDup (displayed_ids (apply_ops initial_page ops)).
Proof.
  intros Hd. exact (proj2 (apply_ops_distinct_from_initial ops Hd)).
Qed.

Lemma one_task_per_identifier_witness :
  NoDup (displayed_ids
           (apply_ops initial_page
              [OpReload (Response 200 (Some (VArr [milk])));
               OpAdd "Bake bread" (Response 201 (Some (VArr [bread])));
               OpToggle 0 Rejected;
               OpReload (Response 503 None);
               OpAdd "" Rejected])).
Proof.
  apply one_task_per_identifier. vm_compute. reflexivity.
Defined.

(** * Clicks while a request is in flight *)

(** C9, as stated, fails: after the first load has displayed [milk], two
    clicks on it in a row leave two PATCH requests for the identifier [t1]
    in flight at the same time. *)
Lemma two_toggles_in_flight :
  pending (run initial
             [Load; Answer 0 (Response 200 (Some (VArr [milk])));
              Click 0 false; Click 0 false]) =
    [completeTask_request (VStr "t1") true;
     completeTask_request (VStr "t1") true].
Proof. reflexivity. Qed.

(** C9, amended: a click on a displayed item sends its PATCH request at
    once, behind whatever is already in flight and without touching the
    page; nothing is queued or rejected, so each further click on the item
    before an answer adds one more request for the same identifier. *)
Theorem click_sends_at_once
    (s : Sys) (n : nat) (li : Li) (task : value) :
  In n (taskList (page s)) ->
  nodes (page s) !! n = Some li ->
  listener li = Some task ->
  renderable task = true ->
  pending (step s (Click n false)) =
    pending s ++ [completeTask_request (prop task "id") (negb (isCompleted li))] /\
  page (step s (Click n false)) = page s.
Proof.
  intros Hin Hn Hl Hr. unfold step.
  rewrite (listener_of_Some (page s) n li task Hin Hn Hl).
  unfold dispatch, click. rewrite (get_prop_renderable task "id" Hr).
  rewrite Hn. cbn [from_option].
  rewrite (completeTask_renderable task _ (page s) Hr).
  simpl. unfold pending. simpl. rewrite map_app. split; reflexivity.
Qed.

Lemma click_sends_at_once_witness :
  let s := run initial
             [Load; Answer 0 (Response 200 (Some (VArr [milk]))); Click 0 false] in
  pending (step s (Click 0 false)) =
    pending s ++ [completeTask_request (VStr "t1") true].
Proof.
  refine (proj1 (click_sends_at_once
            (run initial
               [Load; Answer 0 (Response 200 (Some (VArr [milk]))); Click 0 false])
            0 (render_li milk) milk _ _ _ _)).
  - simpl. left. reflexivity.
  - reflexivity.
  - reflexivity.
  - reflexivity.
Defined.

(** * What Add leaves alone *)

Section AddFrame.

Lemma Add_cases (p : Page) (r : FetchResult) :
  (trim (taskInput p) = "" /\
   Add r p = emit (Alert "You must write something!") p) \/
  (trim (taskInput p) <> "" /\ exists t,
     created_record r = Some t /\
     Add r p = mkPage (nodes p ++ [render_li t]) (taskList p ++ [length (nodes p)])
                      "" (effects p)) \/
  (trim (taskInput p) <> "" /\ created_record r = None /\ exists e extra,
     Add r p =
       report "Failed to add task via API. Check console for details."
              "Could not add task:" e
              (mkPage (nodes p ++ extra) (taskList p) (taskInput p) (effects p))).
Proof.
  unfold Add, complete. rewrite keypress_Enter. unfold addTask, taskName_of.
  destruct (String.eqb (trim (taskInput p)) "") eqn:E.
  - left. apply String.eqb_eq in E. split; [exact E|reflexivity].
  - apply String.eqb_neq in E. right.
    destruct (created_record r) as [t|] eqn:Hc.
    + left. split; [exact E|]. exists t. split; [reflexivity|].
      apply addTask_resume_created. exact Hc.
    + right. split; [exact E|]. split; [reflexivity|].
      apply addTask_resume_failed. exact Hc.
Qed.

End AddFrame.

(** C10: Add clears the input field only when the create succeeded.  With
    an empty trimmed name, or with a request that failed in transport or
    whose body is not JSON, the input keeps its value; whenever the value
    changed, the name was not empty and a record came back.  In every case
    each element that existed keeps its content and the list keeps its
    children in place, so no other task is modified. *)
Theorem add_clears_input_only_on_success (p : Page) (r : FetchResult) :
  (trim (taskInput p) = "" \/ transport_failure r || decode_failure r = true ->
   taskInput (Add r p) = taskInput p) /\
  (taskInput (Add r p) <> taskInput p ->
   trim (taskInput p) <> "" /\ exists t, created_record r = Some t) /\
  (trim (taskInput p) <> "" -> is_Some (created_record r) ->
   taskInput (Add r p) = "") /\
  (forall n li, nodes p !! n = Some li -> nodes (Add r p) !! n = Some li) /\
  taskList p `prefix_of` taskList (Add r p).
Proof.
  destruct (Add_cases p r)
    as [[Hname ->] | [[Hname [t [Hc ->]]] | [Hname [Hc [e [extra ->]]]]]]; simpl;
    (split; [|split; [|split; [|split]]]).
  - intros _. reflexivity.
  - intros H. contradiction.
  - intros H. contradiction.
  - intros n li Hn. exact Hn.
  - exists []. rewrite app_nil_r. reflexivity.
  - intros [H | H]; [contradiction|].
    apply failure_no_record in H. congruence.
  - intros _. split; [exact Hname|]. exists t. exact Hc.
  - intros _ _. reflexivity.
  - intros n li Hn. apply lookup_app_l_Some. exact Hn.
  - exists [length (nodes p)]. reflexivity.
  - intros _. reflexivity.
  - intros H. contradiction.
  - intros _ [t Ht]. congruence.
  - intros n li Hn. apply lookup_app_l_Some. exact Hn.
  - exists []. rewrite app_nil_r. reflexivity.
Qed.

Lemma add_clears_input_only_on_success_witness :
  taskInput (Add (Response 500 None) (set_taskInput "Bake bread" milk_page)) =
    "Bake bread" /\
  taskInput (Add (Response 201 (Some (VArr [bread])))
               (set_taskInput "Bake bread" milk_page)) = "".
Proof.
  split.
  - refine (proj1 (add_clears_input_only_on_success
              (set_taskInput "Bake bread" milk_page) (Response 500 None)) _).
    right. reflexivity.
  - refine (proj1 (proj2 (proj2 (add_clears_input_only_on_success
              (set_taskInput "Bake bread" milk_page)
              (Response 201 (Some (VArr [bread])))))) _ _).
    + simpl. discriminate.
    + eexists. reflexivity.
Defined.

(** * Overlapping requests *)

(** C8, as stated, fails: the backend hands out the one identifier [t1],
    to the record the add creates, and names it once in each answer; the
    add and the reload overlap, the list answer, which already names the
    new record, arrives first, and the add answer appends the record
    again: [t1] is displayed twice. *)
Lemma overlapping_reload_and_add :
  let created := Response 201 (Some (VArr [milk])) in
  let listed := Response 200 (Some (VArr [milk])) in
  created_id created = Some "t1" /\
  listed_ids listed = ["t1"] /\
  displayed_ids
    (page (run initial
             [Input "Buy milk"; Key "Enter"; Load;
              Answer 1 listed; Answer 0 created])) =
    [Some "t1"; Some "t1"] /\
  ~ NoDup
      (displayed_ids
         (page (run initial
                  [Input "Buy milk"; Key "Enter"; Load;
                   Answer 1 listed; Answer 0 created]))).
Proof.
  repeat split.
  intros H. apply NoDup_cons in H. destruct H as [H _].
  apply H. left.
Qed.

(** * Invariants of the event loop *)

Section EventLoopInvariant.

Variable P : Page -> Prop.
Variable Adm : Request -> FetchResult -> Page -> bool.

Hypothesis loadTasks_ok : handler_ok P Adm loadTasks.
Hypothesis keypress_ok : forall key, handler_ok P Adm (keypress key).
Hypothesis click_ok : forall n task b, handler_ok P Adm (click n task b).
Hypothesis input_ok : forall v p, P p -> P (set_taskInput v p).

Lemma dispatch_inv (h : Handler) (s : Sys) :
  handler_ok P Adm h -> SysInv P Adm s -> SysInv P Adm (dispatch h s).
Proof.
  intros Hh [Hp Hq]. unfold dispatch.
  destruct (Hh (page s) Hp) as [Hp' Hk].
  destruct (h (page s)) as [p' [|req k]]; simpl in *.
  - split; assumption.
  - split; [exact Hp'|]. simpl.
    apply Forall_app. split; [exact Hq|].
    constructor; [exact Hk|constructor].
Qed.

Lemma step_inv (s : Sys) (e : Event) :
  SysInv P Adm s -> admissible Adm s e = true -> SysInv P Adm (step s e).
Proof.
  intros Hs Hadm. destruct e as [|v|key|n b|i r]; simpl.
  - apply dispatch_inv; [exact loadTasks_ok|exact Hs].
  - destruct Hs as [Hp Hq]. split; [apply input_ok; exact Hp|exact Hq].
  - apply dispatch_inv; [apply keypress_ok|exact Hs].
  - destruct (listener_of (page s) n) as [task|]; [|exact Hs].
    apply dispatch_inv; [apply click_ok|exact Hs].
  - simpl in Hadm. destruct Hs as [Hp Hq].
    destruct (inflight s !! i) as [[req k]|] eqn:Hi; [|split; assumption].
    split; simpl.
    + exact (Forall_lookup_1 _ _ _ _ Hq Hi r (page s) Hp Hadm).
    + apply Forall_delete. exact Hq.
Qed.

Lemma run_inv (es : list Event) (s : Sys) :
  SysInv P Adm s -> admissible_run Adm s es = true -> SysInv P Adm (run s es).
Proof.
  revert s. induction es as [|e es IH]; intros s Hs Hadm; [exact Hs|].
  simpl in Hadm. apply andb_prop in Hadm. destruct Hadm as [He Hrest].
  simpl. apply IH; [|exact Hrest]. apply step_inv; assumption.
Qed.

Lemma run_initial_inv (es : list Event) :
  P initial_page -> admissible_run Adm initial es = true ->
  P (page (run initial es)).
Proof.
  intros H0 Hadm.
  apply (run_inv es initial); [|exact Hadm].
  split; [exact H0|constructor].
Qed.

End EventLoopInvariant.

Lemma admissible_any (es : list Event) (s : Sys) :
  admissible_run any_answer s es = true.
Proof.
  revert s. induction es as [|e es IH]; intros s; [reflexivity|].
  simpl. rewrite IH, andb_true_r.
  destruct e; try reflexivity. simpl.
  destruct (inflight s !! i) as [[req k]|]; reflexivity.
Qed.

(** * Rendered elements *)

Section RenderedElements.

Lemma contains_flip_completed (l : list string) :
  contains "completed"
    (toggle "w3-border-theme-l1" (toggle "w3-border-green" (toggle "completed" l)))
  = negb (contains "completed" l).
Proof.
  rewrite !contains_toggle_other by discriminate. apply contains_toggle_self.
Qed.

Lemma contains_flip_green (l : list string) :
  contains "w3-border-green"
    (toggle "w3-border-theme-l1" (toggle "w3-border-green" (toggle "completed" l)))
  = negb (contains "w3-border-green" l).
Proof.
  rewrite contains_toggle_other by discriminate.
  rewrite contains_toggle_self.
  rewrite contains_toggle_other by discriminate. reflexivity.
Qed.

Lemma contains_flip_theme (l : list string) :
  contains "w3-border-theme-l1"
    (toggle "w3-border-theme-l1" (toggle "w3-border-green" (toggle "completed" l)))
  = negb (contains "w3-border-theme-l1" l).
Proof.
  rewrite contains_toggle_self.
  rewrite !contains_toggle_other by discriminate. reflexivity.
Qed.

Lemma borders_ok_flip (l : list string) :
  borders_ok l = true ->
  borders_ok
    (toggle "w3-border-theme-l1" (toggle "w3-border-green" (toggle "completed" l)))
  = true.
Proof.
  unfold borders_ok.
  rewrite contains_flip_completed, contains_flip_green, contains_flip_theme.
  destruct (contains "w3-border-green" l), (contains "completed" l),
    (contains "w3-border-theme-l1" l); simpl; intros H; congruence.
Qed.

Lemma rendered_render_li (t : value) :
  renderable t = true -> rendered (render_li t).
Proof.
  intros Ht. exists t. repeat split; try assumption.
  unfold render_li. simpl. destruct (truthy (prop t "is_completed")); reflexivity.
Qed.

Lemma rendered_flip (li : Li) : rendered li -> rendered (flip_classes li).
Proof.
  intros [task [Hl [Ht [Hid [Hname Hb]]]]]. exists task.
  unfold flip_classes. simpl. repeat split; try assumption.
  apply borders_ok_flip. exact Hb.
Qed.

Lemma node_ok_flip (li : Li) : node_ok li -> node_ok (flip_classes li).
Proof.
  intros [Hnone | Hr]; [left; exact Hnone|right; apply rendered_flip; exact Hr].
Qed.

Lemma node_ok_blank : node_ok blank_li.
Proof. left. reflexivity. Qed.

Lemma node_ok_leftover (task : value) : node_ok (leftover task).
Proof.
  left. unfold leftover.
  destruct (get_prop task "is_completed"); [|reflexivity].
  destruct (ToString (prop task "id")); reflexivity.
Qed.

Lemma node_ok_unrendered (items : list value) : Forall node_ok (unrendered items).
Proof.
  induction items as [|x items IH]; simpl; [constructor|].
  destruct (renderable x); [exact IH|].
  constructor; [apply node_ok_leftover|constructor].
Qed.

Lemma PageInv_ext (q q' : Page) :
  nodes q' = nodes q -> taskList q' = taskList q -> PageInv q -> PageInv q'.
Proof.
  unfold PageInv, wf. intros -> ->. exact id.
Qed.

Lemma PageInv_grow (q : Page) (extra : list Li) (v : string) (log : list Effect) :
  PageInv q -> Forall node_ok extra ->
  PageInv (mkPage (nodes q ++ extra) (taskList q) v log).
Proof.
  intros [Hwf [Hnd [Hnodes Hlist]]] Hextra. unfold PageInv, wf in *. simpl.
  repeat split.
  - eapply Forall_impl; [exact Hwf|]. simpl. intros n Hn.
    rewrite length_app. lia.
  - exact Hnd.
  - apply Forall_app. split; assumption.
  - eapply Forall_impl; [exact Hlist|]. simpl. intros n [li [Hn Hr]].
    exists li. split; [|exact Hr]. apply lookup_app_l_Some. exact Hn.
Qed.

Lemma PageInv_append (q : Page) (li : Li) (v : string) (log : list Effect) :
  PageInv q -> rendered li ->
  PageInv (mkPage (nodes q ++ [li]) (taskList q ++ [length (nodes q)]) v log).
Proof.
  intros [Hwf [Hnd [Hnodes Hlist]]] Hli. unfold PageInv, wf in *. simpl.
  repeat split.
  - rewrite length_app. simpl. apply Forall_app. split.
    + eapply Forall_impl; [exact Hwf|]. simpl. intros; lia.
    + constructor; [lia|constructor].
  - apply NoDup_app. repeat split.
    + exact Hnd.
    + intros n Hn Hn'. apply list_elem_of_singleton in Hn'. subst n.
      rewrite Forall_forall in Hwf. specialize (Hwf _ Hn). lia.
    + apply NoDup_singleton.
  - apply Forall_app. split; [exact Hnodes|].
    constructor; [right; exact Hli|constructor].
  - apply Forall_app. split.
    + eapply Forall_impl; [exact Hlist|]. simpl. intros n [li' [Hn Hr]].
      exists li'. split; [|exact Hr]. apply lookup_app_l_Some. exact Hn.
    + constructor; [|constructor]. exists li. split; [|exact Hli].
      rewrite lookup_app_r by lia. rewrite Nat.sub_diag. reflexivity.
Qed.

Lemma renderable_prefix_all (items : list value) :
  Forall (fun x => renderable x = true) (renderable_prefix items).
Proof.
  induction items as [|x items IH]; simpl; [constructor|].
  destruct (renderable x) eqn:Hx; constructor; assumption.
Qed.

Lemma PageInv_after_forEach (items : list value) (q : Page) :
  Forall node_ok (nodes q) ->
  PageInv (after_forEach items (set_taskList [] q)).
Proof.
  intros Hnodes. split; [apply wf_after_forEach|].
  unfold after_forEach. simpl. repeat split.
  - apply NoDup_seq.
  - apply Forall_app. split; [exact Hnodes|].
    apply Forall_app. split.
    + apply Forall_forall. intros li Hli.
      apply list_elem_of_In, in_map_iff in Hli. destruct Hli as [x [<- Hx]].
      right. apply rendered_render_li.
      pose proof (renderable_prefix_all items) as Hall.
      rewrite Forall_forall in Hall. apply Hall, list_elem_of_In. exact Hx.
    + apply node_ok_unrendered.
  - apply Forall_forall. intros n Hn.
    apply elem_of_seq in Hn.
    assert (Hlt : n - length (nodes q) < length (renderable_prefix items)) by lia.
    destruct (lookup_lt_is_Some_2 _ _ Hlt) as [x Hx].
    exists (render_li x). split.
    + rewrite lookup_app_r by lia. apply lookup_app_l_Some.
      change (map render_li (renderable_prefix items))
        with (render_li <$> renderable_prefix items).
      rewrite list_lookup_fmap, Hx. reflexivity.
    + apply rendered_render_li.
      pose proof (renderable_prefix_all items) as Hall.
      exact (Forall_lookup_1 _ _ _ _ Hall Hx).
Qed.

Lemma PageInv_flip (q : Page) (n : nat) :
  PageInv q -> PageInv (update_node n flip_classes q).
Proof.
  intros [Hwf [Hnd [Hnodes Hlist]]]. unfold PageInv, wf, update_node in *. simpl.
  repeat split.
  - rewrite length_alter. exact Hwf.
  - exact Hnd.
  - apply Forall_alter; [exact Hnodes|].
    intros li _. apply node_ok_flip.
  - eapply Forall_impl; [exact Hlist|]. simpl. intros m [li [Hm Hr]].
    rewrite list_lookup_alter. destruct (decide (n = m)) as [->|Hne].
    + rewrite Hm. simpl. exists (flip_classes li).
      split; [reflexivity|apply rendered_flip; exact Hr].
    + exists li. split; assumption.
Qed.

End RenderedElements.

(** * What every reachable page looks like *)

Section ReachablePages.

Lemma loadTasks_resume_PageInv (r : FetchResult) (q : Page) :
  PageInv q -> PageInv (loadTasks_resume r q).
Proof.
  intros Hq. destruct (answer_body r) as [v|] eqn:Hb.
  - assert (Hnodes : Forall node_ok (nodes q)) by apply Hq.
    destruct v;
      try (rewrite (loadTasks_resume_not_array r _ q Hb) by discriminate;
           apply (PageInv_ext (after_forEach [] (set_taskList [] q)));
           [simpl; rewrite app_nil_r; reflexivity | reflexivity
           | apply PageInv_after_forEach; exact Hnodes]).
    destruct (loadTasks_resume_array r items q Hb) as [log ->].
    apply (PageInv_ext (after_forEach items (set_taskList [] q)));
      [reflexivity|reflexivity|].
    apply PageInv_after_forEach. exact Hnodes.
  - destruct (loadTasks_resume_no_body r q Hb) as [e ->].
    apply (PageInv_ext q); [reflexivity|reflexivity|exact Hq].
Qed.

Lemma addTask_resume_failed_nodes (r : FetchResult) (q : Page) :
  created_record r = None ->
  exists e extra,
    Forall node_ok extra /\
    addTask_resume r q =
      report "Failed to add task via API. Check console for details."
             "Could not add task:" e
             (mkPage (nodes q ++ extra) (taskList q) (taskInput q) (effects q)).
Proof.
  unfold created_record. intros Hc.
  unfold addTask_resume, try_catch, report.
  destruct r as [|status [v|]]; simpl in *.
  - exists FetchError, []. split; [constructor|].
    rewrite app_nil_r. destruct q; reflexivity.
  - destruct (ok status); simpl.
    + unfold bind at 1, lift at 1.
      destruct (destructure_first v) as [t|e] eqn:Hd.
      * destruct (renderable t) eqn:Hr; [discriminate Hc|].
        unfold bind. rewrite renderTask_not_renderable by exact Hr.
        exists TypeError, [leftover t].
        split; [constructor; [apply node_ok_leftover|constructor]|reflexivity].
      * exists e, []. split; [constructor|].
        rewrite app_nil_r. destruct q; reflexivity.
    + exists (HttpError status), []. split; [constructor|].
      rewrite app_nil_r. destruct q; reflexivity.
  - destruct (ok status); simpl.
    + exists JsonError, []. split; [constructor|].
      rewrite app_nil_r. destruct q; reflexivity.
    + exists (HttpError status), []. split; [constructor|].
      rewrite app_nil_r. destruct q; reflexivity.
Qed.

Lemma addTask_resume_PageInv (r : FetchResult) (q : Page) :
  PageInv q -> PageInv (addTask_resume r q).
Proof.
  intros Hq. destruct (created_record r) as [t|] eqn:Hc.
  - rewrite (addTask_resume_created r t q Hc).
    apply PageInv_append; [exact Hq|].
    apply rendered_render_li. exact (created_record_renderable r t Hc).
  - destruct (addTask_resume_failed_nodes r q Hc) as [e [extra [Hextra ->]]].
    eapply PageInv_ext; [| |exact (PageInv_grow q extra (taskInput q) (effects q) Hq Hextra)];
      reflexivity.
Qed.

Lemma click_resume_PageInv (n : nat) (id : value) (b : bool)
    (r : FetchResult) (q : Page) :
  PageInv q -> PageInv (update_node n flip_classes (completeTask_resume id b r q)).
Proof.
  intros Hq. destruct (completeTask_resume_page id b r q) as [log [-> _]].
  apply PageInv_flip. apply (PageInv_ext q); [reflexivity|reflexivity|exact Hq].
Qed.

Variable Adm : Request -> FetchResult -> Page -> bool.

Lemma loadTasks_handler_PageInv : handler_ok PageInv Adm loadTasks.
Proof.
  intros p Hp. split; [exact Hp|]. simpl.
  intros r q Hq _. apply loadTasks_resume_PageInv. exact Hq.
Qed.

Lemma keypress_handler_PageInv (key : string) : handler_ok PageInv Adm (keypress key).
Proof.
  intros p Hp. unfold keypress, addTask.
  destruct (String.eqb key "Enter"); [|split; [exact Hp|exact I]].
  destruct (String.eqb (taskName_of None p) ""); simpl.
  - split; [|exact I]. apply (PageInv_ext p); [reflexivity|reflexivity|exact Hp].
  - split; [exact Hp|]. intros r q Hq _. apply addTask_resume_PageInv. exact Hq.
Qed.

Lemma click_handler_PageInv (n : nat) (task : value) (b : bool) :
  handler_ok PageInv Adm (click n task b).
Proof.
  intros p Hp. unfold click.
  destruct b; [split; [exact Hp|exact I]|].
  destruct (get_prop task "id") as [id|e]; [|split; [exact Hp|exact I]].
  unfold completeTask. destruct (ToString id) as [text|e]; cbn [and_then fst snd].
  - split; [exact Hp|].
    intros r q Hq _. apply click_resume_PageInv. exact Hq.
  - split; [|exact I]. apply PageInv_flip.
    apply (PageInv_ext p); [reflexivity|reflexivity|exact Hp].
Qed.

Lemma input_PageInv (v : string) (p : Page) : PageInv p -> PageInv (set_taskInput v p).
Proof. apply PageInv_ext; reflexivity. Qed.

End ReachablePages.

Lemma PageInv_initial : PageInv initial_page.
Proof. repeat split; constructor. Qed.

Lemma PageInv_displayed (q : Page) :
  PageInv q ->
  Forall rendered (displayed q) /\ length (displayed q) = length (taskList q).
Proof.
  intros [_ [_ [_ Hlist]]]. unfold displayed.
  induction Hlist as [|n tl [li [Hn Hr]] _ [IH1 IH2]]; [split; [constructor|reflexivity]|].
  csimpl. rewrite Hn. simpl. split.
  - constructor; assumption.
  - rewrite IH2. reflexivity.
Qed.

(** X1: whatever the user does and in whatever order the answers arrive,
    every child of the list is an existing element, no element is listed
    twice, and every displayed item is a finished one: it carries a
    listener for a readable task, that task's identifier and name, and a
    green border exactly when it is completed, the theme border exactly
    when it is not. *)
Theorem reachable_display_consistent (es : list Event) :
  let q := page (run initial es) in
  wf q /\ NoDup (taskList q) /\
  Forall rendered (displayed q) /\
  length (displayed q) = length (taskList q).
Proof.
  assert (Hinv : PageInv (page (run initial es))).
  { apply (run_initial_inv PageInv any_answer
             (loadTasks_handler_PageInv any_answer)
             (keypress_handler_PageInv any_answer)
             (click_handler_PageInv any_answer)
             input_PageInv es PageInv_initial).
    apply admissible_any. }
  simpl. destruct (PageInv_displayed _ Hinv) as [Hr Hl].
  destruct Hinv as [Hwf [Hnd _]]. repeat split; assumption.
Qed.

(** * Distinct identifiers under overlapping requests *)

Section OverlappingDistinct.

Lemma Inv_ext (q q' : Page) :
  nodes q' = nodes q -> taskList q' = taskList q -> Inv q -> Inv q'.
Proof.
  unfold Inv, wf, displayed_ids, displayed. intros -> ->. exact id.
Qed.

Lemma loadTasks_resume_Inv (r : FetchResult) (q : Page) :
  Inv q -> NoDup (listed_ids r) -> Inv (loadTasks_resume r q).
Proof. intros Hq Hr. exact (Reload_inv q r Hq Hr). Qed.

Lemma addTask_resume_Inv (r : FetchResult) (q : Page) :
  Inv q ->
  (forall i, created_id r = Some i -> Some i ∉ displayed_ids q) ->
  Inv (addTask_resume r q).
Proof.
  intros [Hwf Hnd] Hfresh.
  destruct (created_record r) as [t|] eqn:Hc.
  - rewrite (addTask_resume_created r t q Hc).
    pose proof (created_record_renderable r t Hc) as Ht.
    assert (Hid : Some (to_string (prop t "id")) ∉ displayed_ids q).
    { apply Hfresh. unfold created_id. rewrite Hc. simpl.
      unfold id_string. rewrite Ht. reflexivity. }
    split.
    + unfold wf in *. simpl. rewrite length_app. simpl.
      apply Forall_app. split.
      * eapply Forall_impl; [exact Hwf|]. simpl. intros; lia.
      * constructor; [lia|constructor].
    + unfold displayed_ids, displayed in *. simpl.
      rewrite omap_app, omap_lookup_app by exact Hwf.
      csimpl. rewrite lookup_app_r by lia. rewrite Nat.sub_diag. csimpl.
      rewrite map_app. simpl.
      apply NoDup_app. repeat split.
      * exact Hnd.
      * intros x Hx Hx'. apply list_elem_of_singleton in Hx'. subst x.
        apply Hid. exact Hx.
      * apply NoDup_singleton.
  - destruct (addTask_resume_failed r q Hc) as [e [extra ->]].
    split.
    + unfold wf in *. simpl. rewrite length_app.
      eapply Forall_impl; [exact Hwf|]. simpl. intros; lia.
    + unfold displayed_ids, displayed in *. simpl.
      rewrite omap_lookup_app by exact Hwf. exact Hnd.
Qed.

Lemma Inv_flip (q : Page) (n : nat) :
  Inv q -> Inv (update_node n flip_classes q).
Proof.
  intros [Hwf Hnd]. split.
  - unfold wf, update_node in *. simpl. rewrite length_alter. exact Hwf.
  - unfold displayed_ids, displayed, update_node in *. simpl.
    rewrite ids_update_node_flip. exact Hnd.
Qed.

Lemma click_resume_Inv (n : nat) (id : value) (b : bool)
    (r : FetchResult) (q : Page) :
  Inv q -> Inv (update_node n flip_classes (completeTask_resume id b r q)).
Proof.
  intros [Hwf Hnd].
  destruct (completeTask_resume_page id b r q) as [log [-> _]].
  split.
  - unfold wf, update_node in *. simpl. rewrite length_alter. exact Hwf.
  - unfold displayed_ids, displayed, update_node in *. simpl.
    rewrite ids_update_node_flip. exact Hnd.
Qed.

Lemma loadTasks_handler_Inv : handler_ok Inv distinct_answer loadTasks.
Proof.
  intros p Hp. split; [exact Hp|]. simpl.
  intros r q Hq Hadm. apply loadTasks_resume_Inv; [exact Hq|].
  unfold distinct_answer in Hadm. simpl in Hadm.
  apply bool_decide_eq_true in Hadm. exact Hadm.
Qed.

Lemma keypress_handler_Inv (key : string) :
  handler_ok Inv distinct_answer (keypress key).
Proof.
  intros p Hp. unfold keypress, addTask.
  destruct (String.eqb key "Enter"); [|split; [exact Hp|exact I]].
  destruct (String.eqb (taskName_of None p) ""); simpl.
  - split; [|exact I]. apply (Inv_ext p); [reflexivity|reflexivity|exact Hp].
  - split; [exact Hp|]. intros r q Hq Hadm.
    apply addTask_resume_Inv; [exact Hq|].
    intros i Hi. unfold distinct_answer in Hadm. simpl in Hadm.
    rewrite Hi in Hadm.
    apply negb_true_iff, bool_decide_eq_false in Hadm. exact Hadm.
Qed.

Lemma click_handler_Inv (n : nat) (task : value) (b : bool) :
  handler_ok Inv distinct_answer (click n task b).
Proof.
  intros p Hp. unfold click.
  destruct b; [split; [exact Hp|exact I]|].
  destruct (get_prop task "id") as [id|e]; [|split; [exact Hp|exact I]].
  unfold completeTask. destruct (ToString id) as [text|e]; cbn [and_then fst snd].
  - split; [exact Hp|].
    intros r q Hq _. apply click_resume_Inv. exact Hq.
  - split; [|exact I]. apply Inv_flip.
    apply (Inv_ext p); [reflexivity|reflexivity|exact Hp].
Qed.

Lemma input_Inv (v : string) (p : Page) : Inv p -> Inv (set_taskInput v p).
Proof. apply Inv_ext; reflexivity. Qed.

End OverlappingDistinct.

(** X2: also when requests overlap and answers arrive in any order, no
    identifier is displayed twice, as long as every list answer names each
    identifier once and every create answer names an identifier that is
    not on display at the moment it arrives. *)
Theorem overlapping_distinct_ids (es : list Event) :
  admissible_run distinct_answer initial es = true ->
  NoDup (displayed_ids (page (run initial es))).
Proof.
  intros Hadm.
  assert (Hinv : Inv (page (run initial es))).
  { apply (run_initial_inv Inv distinct_answer
             loadTasks_handler_Inv keypress_handler_Inv click_handler_Inv
             input_Inv es); [|exact Hadm].
    split; constructor. }
  exact (proj2 Hinv).
Qed.

Lemma overlapping_distinct_ids_witness :
  NoDup (displayed_ids
           (page (run initial
                    [Load; Input "Bake bread"; Key "Enter";
                     Answer 1 (Response 201 (Some (VArr [bread])));
                     Click 0 false;
                     Answer 0 (Response 200 (Some (VArr [milk])));
                     Answer 0 Rejected]))).
Proof.
  apply overlapping_distinct_ids. vm_compute. reflexivity.
Defined.

(** * More on toggling *)

Section ToggleMore.

Lemma click_resume_fields (n : nat) (id : value) (b : bool)
    (r : FetchResult) (q : Page) :
  let q' := update_node n flip_classes (completeTask_resume id b r q) in
  nodes q' = alter flip_classes n (nodes q) /\
  taskList q' = taskList q /\
  taskInput q' = taskInput q.
Proof.
  destruct (completeTask_resume_page id b r q) as [log [Hq _]].
  simpl. rewrite Hq. repeat split.
Qed.

Lemma completeTask_resume_success (id : value) (b : bool) (r : FetchResult) (q : Page) :
  transport_failure r = false ->
  completeTask_resume id b r q =
    emit (ConsoleLog ("Task " ++ to_string id ++ " status updated to "
                      ++ to_string (VBool b))%string) q.
Proof.
  unfold completeTask_resume, try_catch.
  destruct r as [|status json]; simpl; [discriminate|].
  intros Hok. rewrite Hok. reflexivity.
Qed.

Lemma step_click (s : Sys) (n : nat) (li : Li) (task : value) :
  In n (taskList (page s)) ->
  nodes (page s) !! n = Some li ->
  listener li = Some task ->
  renderable task = true ->
  step s (Click n false) =
    mkSys (page s)
      (inflight s ++
         [(completeTask_request (prop task "id") (negb (isCompleted li)),
           fun r p' =>
             update_node n flip_classes
               (completeTask_resume (prop task "id") (negb (isCompleted li)) r p'))]).
Proof.
  intros Hin Hn Hl Hr. unfold step.
  rewrite (listener_of_Some (page s) n li task Hin Hn Hl).
  unfold dispatch, click. rewrite (get_prop_renderable task "id" Hr).
  rewrite Hn. cbn [from_option].
  rewrite (completeTask_renderable task _ (page s) Hr). reflexivity.
Qed.

Lemma step_answer (s : Sys) (i : nat) (r : FetchResult)
    (req : Request) (k : FetchResult -> Page -> Page) :
  inflight s !! i = Some (req, k) ->
  step s (Answer i r) = mkSys (k r (page s)) (delete i (inflight s)).
Proof. intros Hi. simpl. rewrite Hi. reflexivity. Qed.

Lemma displayed_update_node_other (n : nat) (f : Li -> Li) (q : Page) :
  ~ In n (taskList q) -> displayed (update_node n f q) = displayed q.
Proof.
  unfold displayed, update_node. simpl.
  induction (taskList q) as [|m tl IH]; intros Hn; [reflexivity|].
  csimpl. rewrite list_lookup_alter_ne by (intros ->; apply Hn; left; reflexivity).
  rewrite IH by (intros H; apply Hn; right; exact H). reflexivity.
Qed.

End ToggleMore.

(** X3: a toggle, whatever its answer, changes the classes of the clicked
    item only: every other element, the list and the input field are as
    before, and the item keeps identifier, label and listener.  When the
    update succeeds the only trace is one console line. *)
Theorem toggle_touches_one_item
    (p : Page) (n : nat) (li : Li) (task : value) (r : FetchResult) :
  In n (taskList p) -> nodes p !! n = Some li -> listener li = Some task ->
  renderable task = true ->
  nodes (Toggle n r p) !! n = Some (flip_classes li) /\
  (forall m, m <> n -> nodes (Toggle n r p) !! m = nodes p !! m) /\
  taskList (Toggle n r p) = taskList p /\
  taskInput (Toggle n r p) = taskInput p /\
  (transport_failure r = false ->
   effects (Toggle n r p) =
     effects p ++
       [ConsoleLog ("Task " ++ to_string (prop task "id") ++ " status updated to "
                    ++ to_string (VBool (negb (isCompleted li))))%string]).
Proof.
  intros Hin Hn Hl Hr.
  rewrite (Toggle_page p n li task r Hin Hn Hl Hr).
  destruct (click_resume_fields n (prop task "id") (negb (isCompleted li)) r p)
    as [Hnodes [Hlist Hinput]].
  rewrite Hnodes, Hlist, Hinput.
  split; [|split; [|split; [|split]]].
  - rewrite list_lookup_alter_eq, Hn. reflexivity.
  - intros m Hm. apply list_lookup_alter_ne. congruence.
  - reflexivity.
  - reflexivity.
  - intros Hok. rewrite (completeTask_resume_success _ _ r p Hok). reflexivity.
Qed.

Lemma toggle_touches_one_item_witness :
  effects (Toggle 0 (Response 204 None) milk_page) =
    [ConsoleLog "Task t1 status updated to true"].
Proof.
  refine (proj2 (proj2 (proj2 (proj2
    (toggle_touches_one_item milk_page 0 (render_li milk) milk
       (Response 204 None) _ _ _ _)))) _).
  - simpl. left. reflexivity.
  - reflexivity.
  - reflexivity.
  - reflexivity.
  - reflexivity.
Defined.

(** X4: two toggles of the same item, each carried through to its answer,
    whatever the two answers are, bring the completion flag back to where
    it was and leave list and input alone. *)
Theorem toggle_twice_restores
    (p : Page) (n : nat) (li : Li) (task : value) (r1 r2 : FetchResult) :
  In n (taskList p) -> nodes p !! n = Some li -> listener li = Some task ->
  renderable task = true ->
  (isCompleted <$> nodes (Toggle n r2 (Toggle n r1 p)) !! n) = Some (isCompleted li) /\
  taskList (Toggle n r2 (Toggle n r1 p)) = taskList p /\
  taskInput (Toggle n r2 (Toggle n r1 p)) = taskInput p.
Proof.
  intros Hin Hn Hl Hr.
  rewrite (Toggle_page p n li task r1 Hin Hn Hl Hr).
  destruct (click_resume_fields n (prop task "id") (negb (isCompleted li)) r1 p)
    as [Hnodes [Hlist Hinput]].
  set (p1 := update_node n flip_classes
               (completeTask_resume (prop task "id") (negb (isCompleted li)) r1 p)) in *.
  assert (Hn1 : nodes p1 !! n = Some (flip_classes li)).
  { rewrite Hnodes, list_lookup_alter_eq, Hn. reflexivity. }
  assert (Hin1 : In n (taskList p1)) by (rewrite Hlist; exact Hin).
  rewrite (Toggle_page p1 n (flip_classes li) task r2 Hin1 Hn1 Hl Hr).
  destruct (click_resume_fields n (prop task "id")
              (negb (isCompleted (flip_classes li))) r2 p1)
    as [Hnodes2 [Hlist2 Hinput2]].
  rewrite Hnodes2, Hlist2, Hinput2, Hlist, Hinput.
  split; [|split; reflexivity].
  rewrite list_lookup_alter_eq, Hn1. simpl.
  rewrite !isCompleted_flip, negb_involutive. reflexivity.
Qed.

Lemma toggle_twice_restores_witness :
  (isCompleted <$>
     nodes (Toggle 0 Rejected (Toggle 0 (Response 204 None) milk_page)) !! 0)
  = Some false.
Proof.
  refine (proj1 (toggle_twice_restores milk_page 0 (render_li milk) milk
                   (Response 204 None) Rejected _ _ _ _)).
  - simpl. left. reflexivity.
  - reflexivity.
  - reflexivity.
  - reflexivity.
Defined.

Section AnswersInFlight.

Lemma step_answer_at (q : Page)
    (before after : list (Request * (FetchResult -> Page -> Page)))
    (c : Request * (FetchResult -> Page -> Page)) (r : FetchResult) :
  step (mkSys q (before ++ c :: after)) (Answer (length before) r) =
    mkSys (snd c r q) (before ++ after).
Proof.
  unfold step. cbn [inflight page].
  rewrite list_lookup_middle by reflexivity.
  destruct c as [req k]. rewrite delete_middle. reflexivity.
Qed.

Lemma step_load (q : Page) (pend : list (Request * (FetchResult -> Page -> Page))) :
  step (mkSys q pend) Load =
    mkSys q (pend ++ [(loadTasks_request, loadTasks_resume)]).
Proof. reflexivity. Qed.

Lemma step_click_at (q : Page) (pend : list (Request * (FetchResult -> Page -> Page)))
    (n : nat) (li : Li) (task : value) :
  In n (taskList q) -> nodes q !! n = Some li ->
  listener li = Some task -> renderable task = true ->
  step (mkSys q pend) (Click n false) =
    mkSys q
      (pend ++
         [(completeTask_request (prop task "id") (negb (isCompleted li)),
           fun r p' =>
             update_node n flip_classes
               (completeTask_resume (prop task "id") (negb (isCompleted li)) r p'))]).
Proof.
  intros Hin Hn Hl Hr.
  exact (step_click (mkSys q pend) n li task Hin Hn Hl Hr).
Qed.

End AnswersInFlight.

(** X5: two clicks on an item before any answer send two update requests
    that carry the same new status, the negation of the status shown at
    the time of the clicks; once both are answered, whatever the answers,
    the item shows its old status again.  After two successful answers the
    backend holds the new status and the page the old one. *)
Theorem double_click_same_status
    (s : Sys) (n : nat) (li : Li) (task : value) (r1 r2 : FetchResult) :
  In n (taskList (page s)) -> nodes (page s) !! n = Some li ->
  listener li = Some task -> renderable task = true ->
  let req := completeTask_request (prop task "id") (negb (isCompleted li)) in
  let k := length (inflight s) in
  let s2 := run s [Click n false; Click n false] in
  pending s2 = pending s ++ [req; req] /\
  pending (run s2 [Answer k r1; Answer k r2]) = pending s /\
  (isCompleted <$> nodes (page (run s2 [Answer k r1; Answer k r2])) !! n)
    = Some (isCompleted li).
Proof.
  destruct s as [q pend]. cbn [page inflight].
  intros Hin Hn Hl Hr.
  unfold run. cbn [fold_left].
  rewrite (step_click_at q pend n li task Hin Hn Hl Hr).
  set (c := (completeTask_request (prop task "id") (negb (isCompleted li)),
             fun r p' =>
               update_node n flip_classes
                 (completeTask_resume (prop task "id") (negb (isCompleted li)) r p'))).
  rewrite (step_click_at q (pend ++ [c]) n li task Hin Hn Hl Hr). fold c.
  split.
  { unfold pending. cbn [inflight]. rewrite !map_app. simpl.
    rewrite <- app_assoc. reflexivity. }
  rewrite <- app_assoc. cbn [app].
  rewrite (step_answer_at q pend [c] c r1).
  rewrite (step_answer_at (snd c r1 q) pend [] c r2).
  rewrite app_nil_r. cbn [page inflight].
  split; [reflexivity|].
  unfold c. cbn [snd].
  destruct (click_resume_fields n (prop task "id") (negb (isCompleted li)) r1 q)
    as [Hnodes1 _].
  set (p1 := update_node n flip_classes
               (completeTask_resume (prop task "id") (negb (isCompleted li)) r1 q)) in *.
  destruct (click_resume_fields n (prop task "id") (negb (isCompleted li)) r2 p1)
    as [Hnodes2 _].
  rewrite Hnodes2, Hnodes1, !list_lookup_alter_eq, Hn. simpl.
  rewrite !isCompleted_flip, negb_involutive. reflexivity.
Qed.

Lemma double_click_same_status_witness :
  let s := run initial [Load; Answer 0 (Response 200 (Some (VArr [milk])))] in
  pending (run s [Click 0 false; Click 0 false]) =
    [completeTask_request (VStr "t1") true; completeTask_request (VStr "t1") true].
Proof.
  refine (proj1 (double_click_same_status
            (run initial [Load; Answer 0 (Response 200 (Some (VArr [milk])))])
            0 (render_li milk) milk Rejected Rejected _ _ _ _)).
  - simpl. left. reflexivity.
  - reflexivity.
  - reflexivity.
  - reflexivity.
Defined.

(** X6: when a reload is answered while a toggle of a displayed item is
    still in flight, the toggle's answer, arriving afterwards, flips the
    element that was clicked, which is no longer in the list: the display
    stays exactly what the reload rendered. *)
Theorem toggle_answer_after_reload_not_shown
    (s : Sys) (n : nat) (li : Li) (task : value)
    (status : Z) (items : list value) (r : FetchResult) :
  wf (page s) ->
  In n (taskList (page s)) -> nodes (page s) !! n = Some li ->
  listener li = Some task -> renderable task = true ->
  ok status = true ->
  let k := length (inflight s) in
  displayed
    (page (run s [Click n false; Load;
                  Answer (S k) (Response status (Some (VArr items)));
                  Answer k r]))
  = map render_li (renderable_prefix items).
Proof.
  destruct s as [q pend]. cbn [page inflight].
  intros Hwf Hin Hn Hl Hr Hok.
  unfold run. cbn [fold_left].
  rewrite (step_click_at q pend n li task Hin Hn Hl Hr).
  set (c := (completeTask_request (prop task "id") (negb (isCompleted li)),
             fun r p' =>
               update_node n flip_classes
                 (completeTask_resume (prop task "id") (negb (isCompleted li)) r p'))).
  rewrite step_load.
  replace (S (length pend)) with (length (pend ++ [c]))
    by (rewrite length_app; simpl; lia).
  set (resp := Response status (Some (VArr items))).
  rewrite (step_answer_at q (pend ++ [c]) [] (loadTasks_request, loadTasks_resume) resp).
  rewrite app_nil_r. cbn [snd].
  rewrite (step_answer_at (loadTasks_resume resp q) pend [] c r).
  cbn [page]. unfold c. cbn [snd].
  set (p1 := loadTasks_resume resp q).
  assert (Hb : answer_body resp = Some (VArr items)).
  { unfold resp. simpl. rewrite Hok. reflexivity. }
  assert (Hd1 : displayed p1 = map render_li (renderable_prefix items)).
  { change p1 with (Reload resp q).
    rewrite displayed_Reload. unfold listing. rewrite Hb. reflexivity. }
  assert (Hl1 : taskList p1 =
                seq (length (nodes q)) (length (renderable_prefix items))).
  { unfold p1. destruct (loadTasks_resume_array resp items q Hb) as [log ->].
    reflexivity. }
  destruct (completeTask_resume_page (prop task "id") (negb (isCompleted li)) r p1)
    as [log [Hq _]].
  rewrite Hq.
  rewrite displayed_update_node_other.
  - exact Hd1.
  - simpl. rewrite Hl1. intros Hseq. apply in_seq in Hseq.
    unfold wf in Hwf. rewrite Forall_forall in Hwf.
    specialize (Hwf n (proj2 (list_elem_of_In _ _) Hin)). lia.
Qed.

Lemma toggle_answer_after_reload_not_shown_witness :
  let s := run initial [Load; Answer 0 (Response 200 (Some (VArr [milk])))] in
  map isCompleted
    (displayed
       (page (run s [Click 0 false; Load;
                     Answer 1 (Response 200 (Some (VArr [milk])));
                     Answer 0 (Response 204 None)])))
  = [false].
Proof.
  refine (f_equal (map isCompleted)
            (toggle_answer_after_reload_not_shown
               (run initial [Load; Answer 0 (Response 200 (Some (VArr [milk])))])
               0 (render_li milk) milk 200%Z [milk] (Response 204 None)
               _ _ _ _ _ _)).
  - repeat constructor.
  - simpl. left. reflexivity.
  - reflexivity.
  - reflexivity.
  - reflexivity.
  - reflexivity.
Defined.

(** * More on reloading *)

Section ReloadMore.

Lemma prefix_short_iff (items : list value) :
  (length (renderable_prefix items) <? length items) = negb (forallb renderable items).
Proof.
  induction items as [|x items IH]; [reflexivity|].
  simpl. destruct (renderable x); simpl; [|reflexivity].
  rewrite <- IH. reflexivity.
Qed.

Lemma loadTasks_resume_array_exact (r : FetchResult) (items : list value) (q : Page) :
  answer_body r = Some (VArr items) ->
  loadTasks_resume r q =
    let q' := after_forEach items (set_taskList [] q) in
    if forallb renderable items then q'
    else report "Failed to load tasks from API. Check console for details."
                "Could not load tasks:" TypeError q'.
Proof.
  intros Hb. unfold loadTasks_resume, try_catch.
  destruct r as [|status [v|]]; simpl in Hb; try discriminate Hb.
  destruct (ok status); [|discriminate Hb]. injection Hb as ->. simpl.
  unfold bind at 1, modify at 1.
  pose proof (forEach_renderTask items (set_taskList [] q)) as Hs.
  pose proof (forEach_renderTask_throws items (set_taskList [] q)) as Hf.
  rewrite prefix_short_iff in Hf.
  destruct (forEach items renderTask (set_taskList [] q)) as [c q'].
  simpl in Hs, Hf. subst q' c.
  destruct (forallb renderable items); reflexivity.
Qed.

Lemma isCompleted_render_li (t : value) :
  isCompleted (render_li t) = truthy (prop t "is_completed").
Proof.
  unfold isCompleted, render_li. simpl.
  destruct (truthy (prop t "is_completed")); reflexivity.
Qed.

Lemma lookup_field_missing (k : string) (fields : list (string * value)) :
  has_key k fields = false -> lookup_field k fields = VUndefined.
Proof.
  unfold lookup_field, has_key. intros Hk.
  replace (filter (fun kv : string * value => fst kv = k) fields) with (@nil (string * value));
    [reflexivity|].
  induction fields as [|[k' v] fields IH]; [reflexivity|].
  simpl in Hk. apply orb_false_elim in Hk. destruct Hk as [Hk' Hk].
  rewrite filter_cons. simpl.
  destruct (decide (k' = k)) as [->|Hne].
  - rewrite String.eqb_refl in Hk'. discriminate Hk'.
  - apply IH. exact Hk.
Qed.

End ReloadMore.

(** X7: a list answer is rendered item by item up to the first element
    that [renderTask] throws on, which is a [null] or a record whose id or
    name does not convert to text: the display becomes the items before
    it, in order, and the failure alert is raised exactly when such an
    element exists; an empty array empties the list silently.  The input
    field is not touched. *)
Theorem reload_renders_up_to_null
    (p : Page) (status : Z) (items : list value) :
  ok status = true ->
  let p' := Reload (Response status (Some (VArr items))) p in
  displayed p' = map render_li (renderable_prefix items) /\
  taskInput p' = taskInput p /\
  effects p' =
    effects p ++
      (if forallb renderable items then []
       else [ConsoleError "Could not load tasks:" TypeError;
             Alert "Failed to load tasks from API. Check console for details."]).
Proof.
  intros Hok p'. subst p'.
  assert (Hb : answer_body (Response status (Some (VArr items))) = Some (VArr items)).
  { simpl. rewrite Hok. reflexivity. }
  split.
  - rewrite displayed_Reload. unfold listing. rewrite Hb. reflexivity.
  - unfold Reload, complete, loadTasks.
    rewrite (loadTasks_resume_array_exact _ items p Hb). cbv zeta.
    destruct (forallb renderable items).
    + split; [reflexivity|]. simpl. rewrite app_nil_r. reflexivity.
    + split; [reflexivity|]. unfold report, emit. simpl.
      rewrite <- app_assoc. reflexivity.
Qed.

Lemma reload_renders_up_to_null_witness :
  displayed (Reload (Response 200 (Some (VArr [bread; VNull; milk]))) milk_page)
  = [render_li bread].
Proof.
  refine (proj1 (reload_renders_up_to_null milk_page 200
                   [bread; VNull; milk] _)).
  reflexivity.
Defined.

(** X8: no reload, whatever its answer, changes the input field or the
    content of an element that already exists; it only decides which
    elements are listed. *)
Theorem reload_keeps_input_and_elements (p : Page) (r : FetchResult) :
  taskInput (Reload r p) = taskInput p /\
  (forall n li, nodes p !! n = Some li -> nodes (Reload r p) !! n = Some li).
Proof.
  unfold Reload, complete, loadTasks.
  destruct (answer_body r) as [v|] eqn:Hb.
  - destruct v;
      try (rewrite (loadTasks_resume_not_array r _ p Hb) by discriminate;
           split; [reflexivity|intros m li Hm; exact Hm]).
    destruct (loadTasks_resume_array r items p Hb) as [log ->].
    split; [reflexivity|]. intros n li Hn. simpl.
    apply lookup_app_l_Some. exact Hn.
  - destruct (loadTasks_resume_no_body r p Hb) as [e ->].
    split; [reflexivity|intros n li Hn; exact Hn].
Qed.

(** X9: a listed record whose [id] and [name] convert to text is
    displayed, completed exactly when its [is_completed] is truthy; if it
    lacks [id] its identifier is the text "undefined", if it lacks [name]
    its label is "undefined", and if it lacks [is_completed] it is shown as
    not completed. *)
Theorem record_with_missing_keys
    (p : Page) (status : Z) (fields : list (string * value)) :
  ok status = true ->
  printable (lookup_field "id" fields) = true ->
  printable (lookup_field "name" fields) = true ->
  exists li,
    displayed (Reload (Response status (Some (VArr [VObj fields]))) p) = [li] /\
    isCompleted li = truthy (lookup_field "is_completed" fields) /\
    (has_key "id" fields = false -> taskId li = Some "undefined") /\
    (has_key "name" fields = false -> label li = "undefined") /\
    (has_key "is_completed" fields = false -> isCompleted li = false).
Proof.
  intros Hok Hid Hname. exists (render_li (VObj fields)).
  assert (Hr : renderable (VObj fields) = true).
  { unfold renderable, prop. simpl. rewrite Hid, Hname. reflexivity. }
  split; [|split; [|split; [|split]]].
  - rewrite displayed_Reload. unfold listing. simpl. rewrite Hok.
    cbn [renderable_prefix]. rewrite Hr. reflexivity.
  - apply isCompleted_render_li.
  - intros Hk. unfold render_li, prop. simpl.
    rewrite (lookup_field_missing _ _ Hk). reflexivity.
  - intros Hk. unfold render_li, prop. simpl.
    rewrite (lookup_field_missing _ _ Hk). reflexivity.
  - intros Hk. rewrite isCompleted_render_li. unfold prop. simpl.
    rewrite (lookup_field_missing _ _ Hk). reflexivity.
Qed.

Lemma record_with_missing_keys_witness :
  exists li,
    displayed (Reload (Response 200
                 (Some (VArr [VObj [("name", VStr "x"); ("isCompleted", VBool true)]])))
                 initial_page) = [li] /\
    taskId li = Some "undefined" /\ isCompleted li = false.
Proof.
  destruct (record_with_missing_keys initial_page 200
              [("name", VStr "x"); ("isCompleted", VBool true)]
              eq_refl eq_refl eq_refl)
    as [li [Hd [_ [Hid [_ Hc]]]]].
  exists li. split; [exact Hd|]. split; [apply Hid|apply Hc]; reflexivity.
Defined.

(** X18: a listed record whose id or name is an object with a key
    [toString] is not displayed: converting it to text throws, rendering
    stops at this record, what was rendered before it stays, and the
    failure alert is raised. *)
Theorem record_with_unprintable_field
    (p : Page) (status : Z) (before rest : list value)
    (fields fs : list (string * value)) :
  ok status = true ->
  forallb renderable before = true ->
  lookup_field "id" fields = VObj fs \/ lookup_field "name" fields = VObj fs ->
  has_key "toString" fs = true ->
  let p' := Reload (Response status
                      (Some (VArr (before ++ VObj fields :: rest)))) p in
  displayed p' = map render_li before /\
  effects p' =
    effects p ++
      [ConsoleError "Could not load tasks:" TypeError;
       Alert "Failed to load tasks from API. Check console for details."].
Proof.
  intros Hok Hbefore Hfield Hk p'. subst p'.
  assert (Hp : printable (VObj fs) = false).
  { unfold printable. simpl. rewrite Hk. reflexivity. }
  assert (Hr : renderable (VObj fields) = false).
  { unfold renderable, prop. simpl.
    destruct Hfield as [-> | ->]; rewrite Hp;
      [reflexivity|apply andb_false_r]. }
  assert (Hprefix : renderable_prefix (before ++ VObj fields :: rest) = before).
  { clear Hok. induction before as [|x before IH]; cbn [app renderable_prefix].
    - rewrite Hr. reflexivity.
    - cbn [forallb] in Hbefore. apply andb_prop in Hbefore.
      destruct Hbefore as [Hx Hb].
      rewrite Hx, (IH Hb). reflexivity. }
  assert (Hall : forallb renderable (before ++ VObj fields :: rest) = false).
  { rewrite forallb_app. cbn [forallb]. rewrite Hr. apply andb_false_r. }
  assert (Hb : answer_body (Response status
                 (Some (VArr (before ++ VObj fields :: rest))))
               = Some (VArr (before ++ VObj fields :: rest))).
  { simpl. rewrite Hok. reflexivity. }
  split.
  - rewrite displayed_Reload. unfold listing. rewrite Hb, Hprefix. reflexivity.
  - unfold Reload, complete, loadTasks.
    rewrite (loadTasks_resume_array_exact _ _ p Hb). cbv zeta. rewrite Hall.
    unfold report, emit. simpl. rewrite <- app_assoc. reflexivity.
Qed.

Lemma record_with_unprintable_field_witness :
  displayed
    (Reload (Response 200
               (Some (VArr [bread;
                            VObj [("id", VObj [("toString", VStr "x")]);
                                  ("name", VStr "n")];
                            milk])))
            milk_page)
  = [render_li bread].
Proof.
  refine (proj1 (record_with_unprintable_field milk_page 200 [bread] [milk]
                   [("id", VObj [("toString", VStr "x")]); ("name", VStr "n")]
                   [("toString", VStr "x")] _ _ _ _)).
  - reflexivity.
  - reflexivity.
  - left. reflexivity.
  - reflexivity.
Defined.

(** * The name that is sent *)

Section Trim.

Lemma string_strong_ind (P : string -> Prop) :
  (forall s, (forall t, String.length t < String.length s -> P t) -> P s) ->
  forall s, P s.
Proof.
  intros H s. remember (String.length s) as n eqn:Hn. revert s Hn.
  induction n as [n IH] using lt_wf_ind. intros s ->.
  apply H. intros t Ht. exact (IH _ Ht t eq_refl).
Qed.

Lemma trim_start_no_space (s : string) : space_width s = 0 -> trim_start s = s.
Proof.
  destruct s as [|a [|b [|c r3]]]; simpl; try reflexivity.
  - destruct (is_space a); [discriminate|reflexivity].
  - destruct (is_space a); [discriminate|].
    destruct (is_space2 a b); [discriminate|reflexivity].
  - destruct (is_space a); [discriminate|].
    destruct (is_space2 a b); [discriminate|].
    destruct (is_space3 a b c); [discriminate|reflexivity].
Qed.

Lemma space_width_trim_start (s : string) : space_width (trim_start s) = 0.
Proof.
  induction s as [s IH] using string_strong_ind.
  destruct s as [|a r1]; [reflexivity|].
  simpl trim_start. destruct (is_space a) eqn:Ha.
  { apply IH. simpl. lia. }
  destruct r1 as [|b r2]; [simpl; rewrite Ha; reflexivity|].
  destruct (is_space2 a b) eqn:Hab.
  { apply IH. simpl. lia. }
  destruct r2 as [|c r3]; [simpl; rewrite Ha, Hab; reflexivity|].
  destruct (is_space3 a b c) eqn:Habc.
  { apply IH. simpl. lia. }
  simpl. rewrite Ha, Hab, Habc. reflexivity.
Qed.

Lemma space_width_prefix (v w : string) :
  space_width (v ++ w)%string = 0 -> space_width v = 0.
Proof.
  destruct v as [|a [|b [|c r3]]]; simpl; try reflexivity.
  - destruct (is_space a); [|reflexivity].
    destruct w as [|x [|y w']]; simpl; intros H; exact H.
  - destruct (is_space a).
    + destruct w; intros H; exact H.
    + destruct (is_space2 a b); [|reflexivity].
      destruct w; intros H; exact H.
  - destruct (is_space a); [intros H; exact H|].
    destruct (is_space2 a b); [intros H; exact H|].
    destruct (is_space3 a b c); intros H; [exact H|reflexivity].
Qed.

Lemma trim_start_blank_app (x y : string) :
  trim_start x = "" -> trim_start (x ++ y)%string = trim_start y.
Proof.
  induction x as [x IH] using string_strong_ind.
  destruct x as [|a r1]; [reflexivity|].
  simpl. destruct (is_space a) eqn:Ha.
  { apply IH. simpl. lia. }
  destruct r1 as [|b r2]; [discriminate|].
  simpl. destruct (is_space2 a b) eqn:Hab.
  { apply IH. simpl. lia. }
  destruct r2 as [|c r3]; [discriminate|].
  simpl. destruct (is_space3 a b c) eqn:Habc; [|discriminate].
  apply IH. simpl. lia.
Qed.

Lemma blank_app (x y : string) :
  blank x = true -> blank y = true -> blank (x ++ y)%string = true.
Proof.
  unfold blank. intros Hx Hy. apply String.eqb_eq in Hx.
  rewrite (trim_start_blank_app x y Hx). exact Hy.
Qed.

Lemma trim_end_cons (c : ascii) (rest : string) :
  trim_end (String c rest) =
    if blank (String c rest) then "" else String c (trim_end rest).
Proof. reflexivity. Qed.

Lemma trim_end_split (s : string) :
  exists w, s = (trim_end s ++ w)%string /\ blank w = true.
Proof.
  induction s as [|c rest [w [Hw Hb]]]; [exists ""; split; reflexivity|].
  rewrite trim_end_cons. destruct (blank (String c rest)) eqn:E.
  - exists (String c rest). split; [reflexivity|exact E].
  - exists w. split; [|exact Hb].
    change (String c rest = String c (trim_end rest ++ w)%string).
    rewrite <- Hw. reflexivity.
Qed.

Lemma trim_end_idem (s : string) : trim_end (trim_end s) = trim_end s.
Proof.
  induction s as [|c rest IH]; [reflexivity|].
  rewrite trim_end_cons. destruct (blank (String c rest)) eqn:E; [reflexivity|].
  rewrite trim_end_cons, IH.
  destruct (blank (String c (trim_end rest))) eqn:E'; [|reflexivity].
  destruct (trim_end_split rest) as [w [Hw Hb]].
  assert (Hs : String c rest = (String c (trim_end rest) ++ w)%string).
  { change (String c rest = String c (trim_end rest ++ w)%string).
    rewrite <- Hw. reflexivity. }
  rewrite Hs, (blank_app _ _ E' Hb) in E. discriminate E.
Qed.

Lemma trim_idem (s : string) : trim (trim s) = trim s.
Proof.
  unfold trim.
  destruct (trim_end_split (trim_start s)) as [w [Hw _]].
  assert (H0 : space_width (trim_end (trim_start s)) = 0).
  { apply (space_width_prefix _ w). rewrite <- Hw. apply space_width_trim_start. }
  rewrite (trim_start_no_space _ H0). apply trim_end_idem.
Qed.

(** What [trim] strips and what it keeps, on samples. *)
Example trim_unicode_spaces :
  (trim (String "194" (String "160" "")),                (* U+00A0 *)
   trim (String "239" (String "187" (String "191" " a "))),   (* U+FEFF *)
   trim (String "226" (String "128" (String "168" ""))), (* U+2028 *)
   trim (String "195" (String "160" " ")))               (* U+00E0 *)
  = ("", "a", "", String "195" (String "160" "")).
Proof. reflexivity. Qed.

End Trim.

(** X10: a key press sends a request only for the Enter key with an input
    that is not blank, and then exactly one: a POST to the collection with
    the trimmed input as name and [is_completed] false.  The name that is
    sent is never empty and has no white space at either end. *)
Theorem keypress_request (key : string) (p : Page) :
  (key = "Enter" -> trim (taskInput p) <> "" ->
   requests_of (keypress key) p = [addTask_request (trim (taskInput p))]) /\
  (key <> "Enter" \/ trim (taskInput p) = "" ->
   requests_of (keypress key) p = []) /\
  (forall req, In req (requests_of (keypress key) p) ->
   method req = POST /\ url req = API_URL /\
   exists name,
     body req = Some (VObj [("name", VStr name); ("is_completed", VBool false)]) /\
     name <> "" /\ trim name = name).
Proof.
  assert (Hcases :
    (key = "Enter" /\ trim (taskInput p) <> "" /\
     requests_of (keypress key) p = [addTask_request (trim (taskInput p))]) \/
    ((key <> "Enter" \/ trim (taskInput p) = "") /\
     requests_of (keypress key) p = [])).
  { unfold requests_of, keypress, addTask, taskName_of.
    destruct (String.eqb key "Enter") eqn:Hk.
    - apply String.eqb_eq in Hk.
      destruct (String.eqb (trim (taskInput p)) "") eqn:Hn.
      + apply String.eqb_eq in Hn. right. split; [right; exact Hn|reflexivity].
      + apply String.eqb_neq in Hn. left. repeat split; assumption.
    - apply String.eqb_neq in Hk. right. split; [left; exact Hk|reflexivity]. }
  destruct Hcases as [[Hk [Hn ->]] | [Hor ->]].
  - split; [intros _ _; reflexivity|]. split.
    + intros [H | H]; contradiction.
    + intros req [<- | []]. repeat split.
      exists (trim (taskInput p)). repeat split; [exact Hn|apply trim_idem].
  - split; [|split].
    + intros Hk Hn. destruct Hor as [H | H]; contradiction.
    + intros _. reflexivity.
    + intros req [].
Qed.

Lemma keypress_request_witness :
  requests_of (keypress "Enter") (set_taskInput "  Buy milk  " milk_page)
  = [addTask_request "Buy milk"].
Proof.
  refine (proj1 (keypress_request "Enter" (set_taskInput "  Buy milk  " milk_page)) _ _).
  - reflexivity.
  - simpl. discriminate.
Defined.

(** * The stand-alone page *)

Section StandAlone.

Lemma omap_lookup_app_any {A} (ns extra : list A) (tl : list nat) :
  Forall (fun n => n < length ns) tl ->
  omap (fun n => (ns ++ extra) !! n) tl = omap (fun n => ns !! n) tl.
Proof.
  induction 1 as [|n tl Hn _ IH]; csimpl; [reflexivity|].
  rewrite lookup_app_l by exact Hn. rewrite IH. reflexivity.
Qed.

Lemma w_addTask_nonempty (t : option string) (isNew : bool) (w : WebApp.Page) :
  WebApp.taskText_of t w <> "" ->
  WebApp.addTask t isNew w =
    WebApp.mkPage
      (WebApp.nodes w ++ [WebApp.mkLi w_classes (WebApp.taskText_of t w)])
      (WebApp.taskList w ++ [length (WebApp.nodes w)])
      (if isNew then "" else WebApp.taskInput w) (WebApp.alerts w).
Proof.
  intros Ht. unfold WebApp.addTask. rewrite (eqb_empty_false _ Ht). reflexivity.
Qed.

Lemma w_displayed_append (w : WebApp.Page) (li : WebApp.Li) (v : string)
    (log : list string) :
  w_wf w ->
  WebApp.displayed
    (WebApp.mkPage (WebApp.nodes w ++ [li])
       (WebApp.taskList w ++ [length (WebApp.nodes w)]) v log)
  = WebApp.displayed w ++ [li].
Proof.
  intros Hwf. unfold WebApp.displayed. simpl.
  rewrite omap_app. f_equal.
  - apply omap_lookup_app_any. exact Hwf.
  - csimpl. rewrite lookup_app_r by lia. rewrite Nat.sub_diag. reflexivity.
Qed.

Lemma w_wf_append (w : WebApp.Page) (li : WebApp.Li) (v : string) (log : list string) :
  w_wf w ->
  w_wf (WebApp.mkPage (WebApp.nodes w ++ [li])
          (WebApp.taskList w ++ [length (WebApp.nodes w)]) v log).
Proof.
  unfold w_wf. simpl. intros Hwf. rewrite length_app. simpl.
  apply Forall_app. split.
  - eapply Forall_impl; [exact Hwf|]. simpl. intros; lia.
  - constructor; [lia|constructor].
Qed.

(** Adding a batch of texts the way [window.onload] does. *)
Lemma w_add_batch (texts : list string) (w : WebApp.Page) :
  Forall (fun t => t <> "") texts ->
  w_wf w ->
  let w' := fold_left (fun q t => WebApp.addTask (Some t) false q) texts w in
  w_wf w' /\
  WebApp.displayed w' = WebApp.displayed w ++ map (WebApp.mkLi w_classes) texts /\
  WebApp.taskInput w' = WebApp.taskInput w /\
  WebApp.alerts w' = WebApp.alerts w.
Proof.
  intros Htexts. revert w.
  induction Htexts as [|t texts Ht _ IH]; intros w Hwf.
  - simpl. rewrite app_nil_r. repeat split. exact Hwf.
  - cbn [fold_left].
    assert (Htext : WebApp.taskText_of (Some t) w = t).
    { destruct t; [contradiction|reflexivity]. }
    assert (Hne : WebApp.taskText_of (Some t) w <> "") by (rewrite Htext; exact Ht).
    rewrite (w_addTask_nonempty (Some t) false w Hne). rewrite Htext.
    specialize (IH _ (w_wf_append w (WebApp.mkLi w_classes t)
                        (WebApp.taskInput w) (WebApp.alerts w) Hwf)).
    cbv zeta in IH. destruct IH as [Hwf' [Hd [Hi Ha]]].
    cbv zeta. split; [exact Hwf'|]. split; [|split; assumption].
    rewrite Hd. rewrite (w_displayed_append w _ _ _ Hwf).
    rewrite <- app_assoc. reflexivity.
Qed.

Lemma dummyTasks_nonempty : Forall (fun t => t <> "") WebApp.dummyTasks.
Proof. unfold WebApp.dummyTasks. repeat constructor; discriminate. Qed.

Lemma NoDup_List_filter (f : nat -> bool) (l : list nat) :
  NoDup l -> NoDup (List.filter f l).
Proof.
  induction 1 as [|x l Hx _ IH]; simpl; [constructor|].
  destruct (f x); [|exact IH].
  constructor; [|exact IH].
  intros Hin. apply Hx. apply list_elem_of_In in Hin.
  apply filter_In in Hin. apply list_elem_of_In. exact (proj1 Hin).
Qed.

Lemma filter_out_length (n : nat) (l : list nat) :
  NoDup l -> In n l ->
  S (length (List.filter (fun m => negb (Nat.eqb m n)) l)) = length l.
Proof.
  induction 1 as [|x l Hx Hnd IH]; intros Hin; [destruct Hin|].
  simpl. destruct (Nat.eqb x n) eqn:E; simpl.
  - apply Nat.eqb_eq in E. subst x. f_equal.
    clear IH Hin Hnd. induction l as [|y l IHl]; [reflexivity|].
    simpl. destruct (Nat.eqb y n) eqn:E.
    + apply Nat.eqb_eq in E. subst y. exfalso. apply Hx. left.
    + simpl. f_equal. apply IHl. intros H. apply Hx. right. exact H.
  - f_equal. apply IH. destruct Hin as [->|Hin]; [|exact Hin].
    rewrite Nat.eqb_refl in E. discriminate E.
Qed.

Lemma filter_out_fresh (n : nat) (l : list nat) :
  ~ In n l -> List.filter (fun m => negb (Nat.eqb m n)) l = l.
Proof.
  induction l as [|x l IH]; intros Hn; [reflexivity|].
  simpl. destruct (Nat.eqb x n) eqn:E.
  - apply Nat.eqb_eq in E. subst x. exfalso. apply Hn. left. reflexivity.
  - simpl. f_equal. apply IH. intros H. apply Hn. right. exact H.
Qed.

Lemma List_filter_sublist (f : nat -> bool) (l : list nat) :
  sublist (List.filter f l) l.
Proof.
  induction l as [|x l IH]; simpl; [constructor|].
  destruct (f x); [apply sublist_skip|apply sublist_cons]; exact IH.
Qed.

Lemma w_wf_initial : w_wf w_initial.
Proof. constructor. Qed.

End StandAlone.

(** X11: in the stand-alone script, [addTask] with a text that is not
    empty and contains no [<] appends one item, not completed and with the
    theme border, after the items on display, which stay as they are; it
    clears the input only for a manual add and raises no alert. *)
Theorem webapp_addTask_appends
    (t : option string) (isNew : bool) (w : WebApp.Page) :
  w_wf w ->
  WebApp.taskText_of t w <> "" ->
  plain_text (WebApp.taskText_of t w) = true ->
  let w' := WebApp.addTask t isNew w in
  WebApp.displayed w' =
    WebApp.displayed w ++ [WebApp.mkLi w_classes (WebApp.taskText_of t w)] /\
  w_isCompleted (WebApp.mkLi w_classes (WebApp.taskText_of t w)) = false /\
  WebApp.taskInput w' = (if isNew then "" else WebApp.taskInput w) /\
  WebApp.alerts w' = WebApp.alerts w.
Proof.
  intros Hwf Ht _ w'. subst w'.
  rewrite (w_addTask_nonempty t isNew w Ht).
  rewrite (w_displayed_append w _ _ _ Hwf). repeat split.
Qed.

Lemma webapp_addTask_appends_witness :
  WebApp.displayed
    (WebApp.addTask None true (WebApp.mkPage [] [] " Buy milk " []))
  = [WebApp.mkLi w_classes "Buy milk"].
Proof.
  refine (proj1 (webapp_addTask_appends None true
                   (WebApp.mkPage [] [] " Buy milk " []) _ _ _)).
  - constructor.
  - simpl. discriminate.
  - reflexivity.
Defined.

(** X12: [window.onload] of the stand-alone script adds the sample tasks,
    all of them and in their order, after whatever is displayed, raises no
    alert, and leaves the input field empty. *)
Theorem webapp_onload_adds_samples (w : WebApp.Page) :
  w_wf w ->
  WebApp.displayed (WebApp.onload w) =
    WebApp.displayed w ++ map (WebApp.mkLi w_classes) WebApp.dummyTasks /\
  WebApp.taskInput (WebApp.onload w) = "" /\
  WebApp.alerts (WebApp.onload w) = WebApp.alerts w.
Proof.
  intros Hwf.
  destruct (w_add_batch WebApp.dummyTasks w dummyTasks_nonempty Hwf)
    as [_ [Hd [_ Ha]]].
  unfold WebApp.onload. repeat split; assumption.
Qed.

Lemma webapp_onload_adds_samples_witness :
  length (WebApp.displayed (WebApp.onload w_initial)) = 25.
Proof.
  rewrite (proj1 (webapp_onload_adds_samples w_initial w_wf_initial)).
  reflexivity.
Defined.

Section StandAloneInvariant.

Lemma w_inv_ext (w w' : WebApp.Page) :
  WebApp.nodes w' = WebApp.nodes w -> WebApp.taskList w' = WebApp.taskList w ->
  w_inv w -> w_inv w'.
Proof. unfold w_inv, w_wf. intros -> ->. exact id. Qed.

Lemma w_addTask_inv (t : option string) (isNew : bool) (w : WebApp.Page) :
  w_inv w -> w_inv (WebApp.addTask t isNew w).
Proof.
  intros Hw. unfold WebApp.addTask.
  destruct (String.eqb (WebApp.taskText_of t w) "").
  - destruct isNew; [|exact Hw].
    apply (w_inv_ext w); [reflexivity|reflexivity|exact Hw].
  - destruct Hw as [Hwf [Hnd Hb]]. split; [|split].
    + apply w_wf_append. exact Hwf.
    + simpl. apply NoDup_app. repeat split.
      * exact Hnd.
      * intros n Hn Hn'. apply list_elem_of_singleton in Hn'. subst n.
        unfold w_wf in Hwf. rewrite Forall_forall in Hwf.
        specialize (Hwf _ Hn). lia.
      * apply NoDup_singleton.
    + simpl. apply Forall_app. split; [exact Hb|].
      constructor; [reflexivity|constructor].
Qed.

Lemma w_batch_inv (texts : list string) (w : WebApp.Page) :
  w_inv w -> w_inv (fold_left (fun q t => WebApp.addTask (Some t) false q) texts w).
Proof.
  revert w. induction texts as [|t texts IH]; intros w Hw; [exact Hw|].
  simpl. apply IH. apply w_addTask_inv. exact Hw.
Qed.

Lemma w_click_inv (n : nat) (b : bool) (w : WebApp.Page) :
  w_inv w -> w_inv (WebApp.click n b w).
Proof.
  intros Hw. unfold WebApp.click. destruct b; [exact Hw|].
  destruct Hw as [Hwf [Hnd Hb]]. unfold w_inv, w_wf in *. simpl.
  rewrite length_alter. split; [exact Hwf|]. split; [exact Hnd|].
  apply Forall_alter; [exact Hb|].
  intros li _ Hli. simpl. apply borders_ok_flip. exact Hli.
Qed.

Lemma w_close_inv (n : nat) (w : WebApp.Page) :
  w_inv w -> w_inv (WebApp.close n w).
Proof.
  intros [Hwf [Hnd Hb]]. unfold w_inv, w_wf, WebApp.close in *. simpl.
  split; [|split; [apply NoDup_List_filter; exact Hnd|exact Hb]].
  apply Forall_forall. intros m Hm.
  apply list_elem_of_In, filter_In in Hm.
  rewrite Forall_forall in Hwf. apply Hwf, list_elem_of_In. exact (proj1 Hm).
Qed.

Lemma w_step_inv (w : WebApp.Page) (e : WEvent) : w_inv w -> w_inv (w_step w e).
Proof.
  intros Hw. destruct e as [|v|key|t isNew|n b]; simpl.
  - unfold WebApp.onload.
    eapply w_inv_ext; [| |exact (w_batch_inv WebApp.dummyTasks w Hw)]; reflexivity.
  - apply (w_inv_ext w); [reflexivity|reflexivity|exact Hw].
  - unfold WebApp.keypress. destruct (String.eqb key "Enter"); [|exact Hw].
    apply w_addTask_inv. exact Hw.
  - apply w_addTask_inv. exact Hw.
  - destruct (existsb (Nat.eqb n) (WebApp.taskList w)); [|exact Hw].
    destruct b.
    + apply (w_click_inv n true), w_close_inv. exact Hw.
    + apply (w_click_inv n false). exact Hw.
Qed.

Lemma w_run_inv (es : list WEvent) (w : WebApp.Page) :
  w_inv w -> w_inv (w_run w es).
Proof.
  revert w. induction es as [|e es IH]; intros w Hw; [exact Hw|].
  simpl. apply IH. apply w_step_inv. exact Hw.
Qed.

Lemma w_inv_displayed (w : WebApp.Page) :
  w_inv w ->
  Forall (fun li => borders_ok (WebApp.classList li) = true) (WebApp.displayed w) /\
  length (WebApp.displayed w) = length (WebApp.taskList w).
Proof.
  intros [Hwf [_ Hb]]. unfold WebApp.displayed, w_wf in *.
  induction Hwf as [|n tl Hn _ [IH1 IH2]]; [split; [constructor|reflexivity]|].
  destruct (lookup_lt_is_Some_2 _ _ Hn) as [li Hli].
  csimpl. rewrite Hli. simpl. split.
  - constructor; [|exact IH1]. exact (Forall_lookup_1 _ _ _ _ Hb Hli).
  - rewrite IH2. reflexivity.
Qed.

Lemma w_inv_initial : w_inv w_initial.
Proof. repeat split; constructor. Qed.

End StandAloneInvariant.

(** X13: on the stand-alone page, after any sequence of loads, edits, key
    presses, adds and clicks on items or on their close buttons, every
    child of the list is an existing element, no element is listed twice,
    and every displayed item has the green border exactly when it is
    completed and the theme border exactly when it is not. *)
Theorem webapp_reachable_consistent (es : list WEvent) :
  let w := w_run w_initial es in
  w_wf w /\ NoDup (WebApp.taskList w) /\
  Forall (fun li => borders_ok (WebApp.classList li) = true) (WebApp.displayed w) /\
  length (WebApp.displayed w) = length (WebApp.taskList w).
Proof.
  assert (Hinv : w_inv (w_run w_initial es)).
  { apply w_run_inv. exact w_inv_initial. }
  simpl. destruct (w_inv_displayed _ Hinv) as [Hb Hl].
  destruct Hinv as [Hwf [Hnd _]]. repeat split; assumption.
Qed.

(** X14: a click on the close button of a displayed item whose label
    contains no [<] removes that item and nothing else: the other items
    stay, in their order, the list is one shorter, no element changes (the
    item is not toggled on the way) and the input is untouched. *)
Theorem webapp_close_removes_item (w : WebApp.Page) (n : nat) (li : WebApp.Li) :
  NoDup (WebApp.taskList w) ->
  In n (WebApp.taskList w) ->
  WebApp.nodes w !! n = Some li ->
  plain_text (WebApp.label li) = true ->
  let w' := w_step w (WClick n true) in
  ~ In n (WebApp.taskList w') /\
  (forall m, m <> n -> (In m (WebApp.taskList w') <-> In m (WebApp.taskList w))) /\
  sublist (WebApp.taskList w') (WebApp.taskList w) /\
  S (length (WebApp.taskList w')) = length (WebApp.taskList w) /\
  WebApp.nodes w' = WebApp.nodes w /\
  WebApp.taskInput w' = WebApp.taskInput w.
Proof.
  intros Hnd Hin _ _ w'. subst w'. simpl.
  replace (existsb (Nat.eqb n) (WebApp.taskList w)) with true.
  2:{ symmetry. apply existsb_exists. exists n. split; [exact Hin|apply Nat.eqb_refl]. }
  unfold WebApp.click, WebApp.close. simpl.
  split; [|split; [|split; [|split; [|split]]]].
  - intros H. apply filter_In in H. destruct H as [_ H].
    rewrite Nat.eqb_refl in H. discriminate H.
  - intros m Hm. rewrite filter_In. split; [intros [H _]; exact H|].
    intros H. split; [exact H|].
    apply negb_true_iff, Nat.eqb_neq. exact Hm.
  - apply List_filter_sublist.
  - apply filter_out_length; assumption.
  - reflexivity.
  - reflexivity.
Qed.

Lemma webapp_close_removes_item_witness :
  let w := w_run w_initial [WAdd (Some "a") false; WAdd (Some "b") false;
                            WAdd (Some "c") false] in
  ~ In 1 (WebApp.taskList (w_step w (WClick 1 true))) /\
  S (length (WebApp.taskList (w_step w (WClick 1 true)))) = 3.
Proof.
  pose proof (webapp_close_removes_item
                (w_run w_initial [WAdd (Some "a") false; WAdd (Some "b") false;
                                  WAdd (Some "c") false]) 1
                (WebApp.mkLi w_classes "b")) as H.
  assert (Hnd : NoDup [0; 1; 2]).
  { apply (NoDup_seq 0 3). }
  specialize (H Hnd (or_intror (or_introl eq_refl)) eq_refl eq_refl).
  split; [exact (proj1 H)|exact (proj1 (proj2 (proj2 (proj2 H))))].
Defined.

(** X15: adding an item with a text that is not empty and contains no [<]
    and then clicking its close button brings the list and the display
    back to what they were. *)
Theorem webapp_add_then_close
    (t : option string) (isNew : bool) (w : WebApp.Page) :
  w_wf w ->
  WebApp.taskText_of t w <> "" ->
  plain_text (WebApp.taskText_of t w) = true ->
  let added := WebApp.addTask t isNew w in
  let w' := w_step added (WClick (length (WebApp.nodes w)) true) in
  WebApp.taskList w' = WebApp.taskList w /\
  WebApp.displayed w' = WebApp.displayed w.
Proof.
  intros Hwf Ht _ added w'. subst added w'.
  rewrite (w_addTask_nonempty t isNew w Ht).
  assert (Hfresh : ~ In (length (WebApp.nodes w)) (WebApp.taskList w)).
  { intros Hin. unfold w_wf in Hwf. rewrite Forall_forall in Hwf.
    specialize (Hwf _ (proj2 (list_elem_of_In _ _) Hin)). lia. }
  assert (Hlist :
    List.filter (fun m => negb (Nat.eqb m (length (WebApp.nodes w))))
      (WebApp.taskList w ++ [length (WebApp.nodes w)]) = WebApp.taskList w).
  { rewrite List.filter_app. simpl. rewrite Nat.eqb_refl. simpl.
    rewrite app_nil_r. apply filter_out_fresh. exact Hfresh. }
  simpl.
  replace (existsb (Nat.eqb (length (WebApp.nodes w)))
             (WebApp.taskList w ++ [length (WebApp.nodes w)])) with true.
  2:{ symmetry. apply existsb_exists. exists (length (WebApp.nodes w)).
      split; [apply in_or_app; right; left; reflexivity|apply Nat.eqb_refl]. }
  unfold WebApp.click, WebApp.close, WebApp.displayed. simpl.
  rewrite Hlist. split; [reflexivity|].
  apply omap_lookup_app_any. exact Hwf.
Qed.

Lemma webapp_add_then_close_witness :
  WebApp.displayed
    (w_step (WebApp.addTask (Some "x") true (WebApp.onload w_initial))
            (WClick 25 true))
  = WebApp.displayed (WebApp.onload w_initial).
Proof.
  refine (proj2 (webapp_add_then_close (Some "x") true (WebApp.onload w_initial) _ _ _)).
  - exact (proj1 (w_run_inv [WLoad] w_initial w_inv_initial)).
  - simpl. discriminate.
  - reflexivity.
Defined.

(** X16: a click on an item of the stand-alone page flips the completion
    of that item only, keeps its label, and a second click brings the
    completion back; a click that lands on the close button toggles
    nothing. *)
Theorem webapp_click_flips_one (w : WebApp.Page) (n : nat) (li : WebApp.Li) :
  WebApp.nodes w !! n = Some li ->
  let w' := WebApp.click n false w in
  (w_isCompleted <$> WebApp.nodes w' !! n) = Some (negb (w_isCompleted li)) /\
  (WebApp.label <$> WebApp.nodes w' !! n) = Some (WebApp.label li) /\
  (forall m, m <> n -> WebApp.nodes w' !! m = WebApp.nodes w !! m) /\
  WebApp.taskList w' = WebApp.taskList w /\
  (w_isCompleted <$> WebApp.nodes (WebApp.click n false w') !! n)
    = Some (w_isCompleted li) /\
  WebApp.click n true w = w.
Proof.
  intros Hn w'. subst w'. unfold WebApp.click. simpl.
  split; [|split; [|split; [|split; [|split]]]].
  - rewrite list_lookup_alter_eq, Hn. simpl. unfold w_isCompleted. simpl.
    rewrite contains_flip_completed. reflexivity.
  - rewrite list_lookup_alter_eq, Hn. reflexivity.
  - intros m Hm. apply list_lookup_alter_ne. congruence.
  - reflexivity.
  - rewrite !list_lookup_alter_eq, Hn. simpl. unfold w_isCompleted. simpl.
    rewrite !contains_flip_completed, negb_involutive. reflexivity.
  - reflexivity.
Qed.

Lemma webapp_click_flips_one_witness :
  (w_isCompleted <$>
     WebApp.nodes (WebApp.click 3 false (WebApp.onload w_initial)) !! 3)
  = Some true.
Proof.
  refine (proj1 (webapp_click_flips_one (WebApp.onload w_initial) 3
                   (WebApp.mkLi w_classes "Write documentation for the project.") _)).
  reflexivity.
Defined.

(** * Typing while an add is pending *)

Section PendingAdd.

Lemma step_enter (q : Page) (pend : list (Request * (FetchResult -> Page -> Page))) :
  trim (taskInput q) <> "" ->
  step (mkSys q pend) (Key "Enter") =
    mkSys q (pend ++ [(addTask_request (trim (taskInput q)), addTask_resume)]).
Proof.
  intros Hn. unfold step, dispatch. cbn [page inflight].
  rewrite keypress_Enter. unfold addTask, taskName_of.
  rewrite (eqb_empty_false _ Hn). reflexivity.
Qed.

Lemma step_input (q : Page) (pend : list (Request * (FetchResult -> Page -> Page)))
    (v : string) :
  step (mkSys q pend) (Input v) = mkSys (set_taskInput v q) pend.
Proof. reflexivity. Qed.

End PendingAdd.

(** X17: what the user types while an add is in flight is erased when the
    add succeeds and kept when it fails; the list is what it was plus, on
    success, the item built from the record that came back, whose label is
    the record's name rather than the text that was typed. *)
Theorem add_answer_and_later_input
    (s : Sys) (v : string) (r : FetchResult) :
  trim (taskInput (page s)) <> "" ->
  wf (page s) ->
  let k := length (inflight s) in
  let s' := run s [Key "Enter"; Input v; Answer k r] in
  (forall t, created_record r = Some t ->
     taskInput (page s') = "" /\
     displayed (page s') = displayed (page s) ++ [render_li t] /\
     label (render_li t) = to_string (prop t "name")) /\
  (created_record r = None ->
     taskInput (page s') = v /\ displayed (page s') = displayed (page s)).
Proof.
  destruct s as [q pend]. cbn [page inflight].
  intros Hn Hwf. unfold run. cbn [fold_left].
  rewrite (step_enter q pend Hn), step_input.
  rewrite (step_answer_at (set_taskInput v q) pend []
             (addTask_request (trim (taskInput q)), addTask_resume) r).
  cbn [page snd]. split.
  - intros t Hc. rewrite (addTask_resume_created r t _ Hc).
    split; [reflexivity|]. split; [|reflexivity].
    unfold displayed. simpl. rewrite omap_app. f_equal.
    + apply omap_lookup_app. exact Hwf.
    + csimpl. rewrite lookup_app_r by lia. rewrite Nat.sub_diag. reflexivity.
  - intros Hc.
    destruct (addTask_resume_failed r (set_taskInput v q) Hc) as [e [extra ->]].
    split; [reflexivity|].
    unfold displayed. simpl. apply omap_lookup_app. exact Hwf.
Qed.

Lemma add_answer_and_later_input_witness :
  let s := mkSys (set_taskInput "Buy milk" initial_page) [] in
  taskInput (page (run s [Key "Enter"; Input "Bake br";
                          Answer 0 (Response 201 (Some (VArr [milk])))])) = "".
Proof.
  refine (proj1 (proj1 (add_answer_and_later_input
            (mkSys (set_taskInput "Buy milk" initial_page) [])
            "Bake br" (Response 201 (Some (VArr [milk]))) _ _) milk _)).
  - simpl. discriminate.
  - constructor.
  - reflexivity.
Defined.
